(** * jai-mcp gateway: authentication, authorization, header rewriting,
      forwarding and audit logging

    A shallow embedding of [src/jai_mcp/gateway/{auth,proxy,logging,main}.py],
    with the configuration, the server start-up, the API client and three of
    the tools that use it.  Python dictionaries are [gmap]s, dictionaries that are mutated in place
    live in a store of dictionary objects, [HTTPException] is the error side
    of a small result monad, and the state of the running service (rate-limit
    storage, audit sink, outbound calls) is passed explicitly. *)

From Stdlib Require Import ZArith Ascii String List Bool Lia.
From stdpp Require Import base option gmap strings list fin_maps pretty.

Local Open Scope string_scope.
Local Open Scope Z_scope.

(** ** Strings *)

(** [str.lower()] on the ASCII range, which is where header names live. *)
Definition lower_ascii (c : ascii) : ascii :=
  let n := nat_of_ascii c in
  if ((65 <=? n)%nat && (n <=? 90)%nat)%bool then ascii_of_nat (n + 32) else c.

Fixpoint lower (s : string) : string :=
  match s with
  | EmptyString => EmptyString
  | String c rest => String (lower_ascii c) (lower rest)
  end.

(** [sep.join(parts)] *)
Fixpoint join (sep : string) (parts : list string) : string :=
  match parts with
  | [] => EmptyString
  | [p] => p
  | p :: rest => p ++ sep ++ join sep rest
  end.

(** [s.partition(" ")]: the text before the first space and the text after
    it ([None] when there is no space). *)
Fixpoint partition_space (s : string) : string * option string :=
  match s with
  | EmptyString => (EmptyString, None)
  | String c rest =>
      if Ascii.eqb c " "%char then (EmptyString, Some rest)
      else let '(a, b) := partition_space rest in (String c a, b)
  end.

(** [s.lstrip("/")] *)
Fixpoint lstrip_slash (s : string) : string :=
  match s with
  | String c rest => if Ascii.eqb c "/"%char then lstrip_slash rest else s
  | EmptyString => EmptyString
  end.

(** Python truthiness of a [str]. *)
Definition nonempty (s : string) : bool :=
  match s with EmptyString => false | _ => true end.

(** [s.split(",")]: the pieces between the commas, at least one. *)
Fixpoint split_comma (s : string) : list string :=
  match s with
  | EmptyString => [EmptyString]
  | String c rest =>
      if Ascii.eqb c ","%char then EmptyString :: split_comma rest
      else match split_comma rest with
           | piece :: pieces => String c piece :: pieces
           | [] => [String c EmptyString]
           end
  end.

(** [c.isspace()] on the ASCII range: tab to carriage return, the four
    separators 28 to 31, and the space. *)
Definition is_space (c : ascii) : bool :=
  let n := nat_of_ascii c in
  ((9 <=? n)%nat && (n <=? 13)%nat
   || (28 <=? n)%nat && (n <=? 32)%nat)%bool.

(** [s.lstrip()], [s.rstrip()] and [s.strip()] *)
Fixpoint lstrip (s : string) : string :=
  match s with
  | String c rest => if is_space c then lstrip rest else s
  | EmptyString => EmptyString
  end.

Fixpoint rstrip (s : string) : string :=
  match s with
  | EmptyString => EmptyString
  | String c rest =>
      match rstrip rest with
      | EmptyString => if is_space c then EmptyString else String c EmptyString
      | kept => String c kept
      end
  end.

Definition strip (s : string) : string := lstrip (rstrip s).

(** [c in s] for a character, and [all(p(c) for c in s)]. *)
Fixpoint char_in (c : ascii) (s : string) : bool :=
  match s with
  | EmptyString => false
  | String a rest => (Ascii.eqb a c || char_in c rest)%bool
  end.

Fixpoint all_chars (p : ascii -> bool) (s : string) : bool :=
  match s with
  | EmptyString => true
  | String a rest => (p a && all_chars p rest)%bool
  end.

(** ** Exceptions and results *)

(** [fastapi.HTTPException(status_code=..., detail=...)] *)
Record HTTPException := mkHTTPException {
  exc_status_code : Z;
  exc_detail : string
}.

Inductive result (A : Type) : Type :=
  | Ok (a : A)
  | Raise (e : HTTPException).
Arguments Ok {A} a.
Arguments Raise {A} e.

#[global] Instance result_ret : MRet result := fun A a => Ok a.

#[global] Instance result_bind : MBind result := fun A B k r =>
  match r with
  | Ok a => k a
  | Raise e => Raise e
  end.

(** ** Inbound requests *)

(** A [starlette.requests.Request].  [req_headers] holds the raw header
    list as a mapping; ASGI servers deliver header names in lower case. *)
Record Request := mkRequest {
  req_method : string;
  req_path : string;
  req_client_host : option string;
  req_headers : gmap string string;
  req_body : string
}.

(** [request.headers.get(name)]: the name asked for is lower-cased and
    compared with the raw names. *)
Definition headers_get (name : string) (request : Request) : option string :=
  req_headers request !! lower name.

(** ** auth.py *)

Module Auth.

(** The user dictionary ([Dict[str, Any]]) with the keys the gateway reads;
    [None] is a missing key, as seen by [user.get(key, default)]. *)
Record User := mkUser {
  u_id : option string;
  u_email : option string;
  u_roles : option (list string);
  u_tenant_id : option string;
  u_permissions : option (list string)
}.

(** [HTTPAuthorizationCredentials] *)
Record HTTPAuthorizationCredentials := mkCredentials {
  scheme : string;
  credentials : string
}.

(** Modelled from the spec: [fastapi.security.HTTPBearer] is a library
    class and not part of the repository.  Section 4.1: the extractor takes
    the raw Authorization header value and yields a credential only when
    the header is present and its scheme is a bearer-style token; the
    failure is the [None] that [verify_api_key] guards against with
    [if not credentials]. *)
Definition security (authorization : option string)
  : option HTTPAuthorizationCredentials :=
  match authorization with
  | None => None
  | Some value =>
      match partition_space value with
      | (sch, Some param) =>
          if (nonempty sch && nonempty param
              && bool_decide (lower sch = "bearer"))%bool
          then Some (mkCredentials sch param)
          else None
      | (_, None) => None
      end
  end.

(** [verify_api_key] *)
Definition verify_api_key (creds : option HTTPAuthorizationCredentials)
  : result string :=
  match creds with
  | None => Raise (mkHTTPException 401 "API key required")
  | Some c =>
      let api_key := credentials c in
      if (negb (nonempty api_key) || (String.length api_key <? 32)%nat)%bool
      then Raise (mkHTTPException 401 "Invalid API key")
      else Ok api_key
  end.

(** [get_user_from_api_key]: the mock user of the source. *)
Definition get_user_from_api_key (api_key : string) : User :=
  {| u_id := Some "admin-user-123";
     u_email := Some "admin@example.com";
     u_roles := Some ["system_admin"];
     u_tenant_id := Some "default";
     u_permissions :=
       Some ["mcp_access"; "module_management"; "project_management"] |}.

(** [user.get] of the roles and of the e-mail address, with the defaults
    of the source (no roles, the empty string). *)
Definition roles_of (user : User) : list string :=
  default [] (u_roles user).

Definition email_of (user : User) : string :=
  default EmptyString (u_email user).

Definition admin_roles : list string := ["system_admin"; "org_admin"].

(** [role in roles] on lists of strings *)
Definition str_in (s : string) (l : list string) : bool :=
  existsb (String.eqb s) l.

(** The body of [verify_admin_access] after the user lookup: the role test
    and the allow-list test.  [ALLOWED_ADMINS] is the module-level list. *)
Definition check_admin (ALLOWED_ADMINS : list string) (user : User)
  : result User :=
  let user_roles := roles_of user in
  if negb (existsb (fun role => str_in role admin_roles) user_roles)
  then Raise (mkHTTPException 403 "MCP access requires admin privileges")
  else
    match ALLOWED_ADMINS with
    | _ :: _ =>
        let user_email := email_of user in
        if negb (str_in user_email ALLOWED_ADMINS)
        then Raise (mkHTTPException 403 "Admin not authorized for MCP access")
        else Ok user
    | [] => Ok user
    end.

(** [verify_admin_access] *)
Definition verify_admin_access (ALLOWED_ADMINS : list string)
    (api_key : string) : result User :=
  check_admin ALLOWED_ADMINS (get_user_from_api_key api_key).

(** [get_tenant_from_request] *)
Definition get_tenant_from_request (request : Request) : result string :=
  match headers_get "X-Tenant-ID" request with
  | Some tenant_id =>
      if nonempty tenant_id then Ok tenant_id
      else Raise (mkHTTPException 400 "Tenant ID required in X-Tenant-ID header")
  | None => Raise (mkHTTPException 400 "Tenant ID required in X-Tenant-ID header")
  end.

(** [verify_tenant_access], on the values its two dependencies deliver. *)
Definition verify_tenant_access (tenant : string) (user : User)
  : result string :=
  let user_tenant := u_tenant_id user in
  if str_in "system_admin" (roles_of user) then Ok tenant
  else if negb (bool_decide (user_tenant = Some tenant))
  then Raise (mkHTTPException 403 "Cross-tenant access denied")
  else Ok tenant.

End Auth.

(** ** auth.py, module level *)

Module AuthConfig.

(** The module-level [ALLOWED_ADMINS]: the value of [JAI_ALLOWED_ADMINS]
    (the empty string when unset) split at the commas, each piece stripped,
    the pieces that strip to nothing left out. *)
Definition ALLOWED_ADMINS (JAI_ALLOWED_ADMINS : option string) : list string :=
  let pieces := split_comma (default EmptyString JAI_ALLOWED_ADMINS) in
  map strip (filter (fun admin => nonempty (strip admin) = true) pieces).

End AuthConfig.

(** ** Dictionary objects *)

(** A [dict] is an object: [copy] allocates a new one, [update], [pop] and
    item assignment change the one they are called on.  The store maps the
    location of each live dictionary to its contents. *)
Module Dict.

Definition loc := positive.

Definition new (d : gmap string string) (σ : gmap loc (gmap string string))
  : loc * gmap loc (gmap string string) :=
  let l := fresh (dom σ) in (l, <[l := d]> σ).

(** [d.copy()] *)
Definition copy (l : loc) (σ : gmap loc (gmap string string))
  : loc * gmap loc (gmap string string) :=
  new (σ !!! l) σ.

(** [d.get(k)] *)
Definition get (l : loc) (k : string) (σ : gmap loc (gmap string string))
  : option string :=
  σ !! l ≫= (.!! k).

(** [d.update({k1: v1, ...})] *)
Definition update (l : loc) (entries : list (string * string))
    (σ : gmap loc (gmap string string)) : gmap loc (gmap string string) :=
  alter (fun d => foldl (fun acc kv => <[kv.1 := kv.2]> acc) d entries) l σ.

(** [d.pop(k, None)] *)
Definition pop (l : loc) (k : string) (σ : gmap loc (gmap string string))
  : gmap loc (gmap string string) :=
  alter (delete k) l σ.

(** [d[k] = v] *)
Definition setitem (l : loc) (k v : string)
    (σ : gmap loc (gmap string string)) : gmap loc (gmap string string) :=
  alter (insert k v) l σ.

End Dict.

(** ** proxy.py *)

Module Proxy.
Import Auth.

(** What [httpx.AsyncClient.request] is called with. *)
Record OutboundRequest := mkOutbound {
  out_method : string;
  out_url : string;
  out_headers : gmap string string;
  out_content : option string
}.

(** An [httpx.Response]: [resp_json] is what [response.json()] returns,
    [None] when it raises [ValueError]. *)
Record UpstreamResponse := mkUpstream {
  status_code : Z;
  resp_json : option string;
  resp_content : string
}.

(** The client either gets a response or fails at the network level
    ([httpx.RequestError]: connection refused, timeout). *)
Inductive ClientOutcome :=
  | Responded (response : UpstreamResponse)
  | Unreachable (message : string).

(** The exceptions that leave [forward_request]. *)
Inductive ProxyError :=
  | HTTPStatusError (response : UpstreamResponse)
  | RequestError (message : string).

(** The value [forward_request] returns: parsed JSON or raw bytes. *)
Inductive ResponseData :=
  | JsonData (value : string)
  | RawContent (content : string).

Record JaiAPIProxy := mkProxy {
  internal_api_url : string;
  timeout : Z;
  _client : OutboundRequest -> ClientOutcome
}.

Definition hop_by_hop_headers : list string :=
  ["connection"; "keep-alive"; "proxy-authenticate"; "proxy-authorization";
   "te"; "trailers"; "transfer-encoding"; "upgrade"].

(** [_prepare_internal_headers]; [JAI_INTERNAL_API_KEY] is the value of the
    environment variable, [None] when unset. *)
Definition _prepare_internal_headers (JAI_INTERNAL_API_KEY : option string)
    (original_headers : Dict.loc) (tenant : string) (user : User)
    (σ : gmap Dict.loc (gmap string string))
  : Dict.loc * gmap Dict.loc (gmap string string) :=
  let '(headers, σ) := Dict.copy original_headers σ in
  let σ := Dict.update headers
    [("X-Forwarded-For",
        default "unknown" (Dict.get headers "x-forwarded-for" σ));
     ("X-Forwarded-Proto", "https");
     ("X-Gateway-User-ID", default "unknown" (u_id user));
     ("X-Gateway-User-Email", default "unknown" (u_email user));
     ("X-Gateway-User-Roles", join "," (default [] (u_roles user)));
     ("X-Gateway-Tenant-ID", tenant);
     ("X-Gateway-Source", "mcp-gateway")] σ in
  let σ := Dict.pop headers "authorization" σ in
  let σ :=
    match JAI_INTERNAL_API_KEY with
    | Some internal_api_key =>
        if nonempty internal_api_key
        then Dict.setitem headers "X-Internal-API-Key" internal_api_key σ
        else σ
    | None => σ
    end in
  (headers, σ).

(** The first half of [forward_request]: the rewritten headers with the
    hop-by-hop headers popped, ready for the outbound call. *)
Definition outbound_headers (JAI_INTERNAL_API_KEY : option string)
    (headers : Dict.loc) (tenant : string) (user : User)
    (σ : gmap Dict.loc (gmap string string))
  : Dict.loc * gmap Dict.loc (gmap string string) :=
  let '(internal_headers, σ) :=
    _prepare_internal_headers JAI_INTERNAL_API_KEY headers tenant user σ in
  (internal_headers,
   foldl (fun σ header => Dict.pop internal_headers header σ)
         σ hop_by_hop_headers).

Record Forwarded := mkForwarded {
  fw_result : ResponseData + ProxyError;
  fw_sent : OutboundRequest;
  fw_store : gmap Dict.loc (gmap string string)
}.

(** [forward_request] *)
Definition forward_request (self : JaiAPIProxy)
    (JAI_INTERNAL_API_KEY : option string)
    (method path : string) (headers : Dict.loc) (body : option string)
    (tenant : string) (user : User)
    (σ : gmap Dict.loc (gmap string string)) : Forwarded :=
  let '(internal_headers, σ) :=
    outbound_headers JAI_INTERNAL_API_KEY headers tenant user σ in
  let request :=
    {| out_method := method;
       out_url := "/" ++ lstrip_slash path;
       out_headers := σ !!! internal_headers;
       out_content := body |} in
  let result :=
    match _client self request with
    | Responded response =>
        if 400 <=? status_code response
        then inr (HTTPStatusError response)
        else match resp_json response with
             | Some value => inl (JsonData value)
             | None => inl (RawContent (resp_content response))
             end
    | Unreachable message => inr (RequestError message)
    end in
  {| fw_result := result; fw_sent := request; fw_store := σ |}.

(** Header rewriting run on its own: the inbound mapping is placed in a
    dictionary, rewritten as [forward_request] does, and the contents of the
    dictionary handed to the client are read back. *)
Definition rewrite_headers (JAI_INTERNAL_API_KEY : option string)
    (inbound : gmap string string) (tenant : string) (user : User)
  : gmap string string :=
  let '(headers, σ) := Dict.new inbound ∅ in
  let '(internal_headers, σ) :=
    outbound_headers JAI_INTERNAL_API_KEY headers tenant user σ in
  σ !!! internal_headers.

(** The entries [_prepare_internal_headers] writes with [update], and the
    contents of the dictionary it returns as a function of the contents of
    the one it is given. *)
Definition injected (inbound : gmap string string) (tenant : string)
    (user : User) : list (string * string) :=
  [("X-Forwarded-For", default "unknown" (inbound !! "x-forwarded-for"));
   ("X-Forwarded-Proto", "https");
   ("X-Gateway-User-ID", default "unknown" (u_id user));
   ("X-Gateway-User-Email", default "unknown" (u_email user));
   ("X-Gateway-User-Roles", join "," (default [] (u_roles user)));
   ("X-Gateway-Tenant-ID", tenant);
   ("X-Gateway-Source", "mcp-gateway")].

Definition prepared_contents (JAI_INTERNAL_API_KEY : option string)
    (inbound : gmap string string) (tenant : string) (user : User)
  : gmap string string :=
  let d :=
    delete "authorization"
      (foldl (fun acc kv => <[kv.1 := kv.2]> acc) inbound
             (injected inbound tenant user)) in
  match JAI_INTERNAL_API_KEY with
  | Some internal_api_key =>
      if nonempty internal_api_key
      then <["X-Internal-API-Key" := internal_api_key]> d
      else d
  | None => d
  end.

Definition outbound_contents (JAI_INTERNAL_API_KEY : option string)
    (inbound : gmap string string) (tenant : string) (user : User)
  : gmap string string :=
  foldl (fun d header => delete header d)
        (prepared_contents JAI_INTERNAL_API_KEY inbound tenant user)
        hop_by_hop_headers.

(** The names the gateway writes itself. *)
Definition gateway_headers : list string :=
  ["X-Forwarded-For"; "X-Forwarded-Proto"; "X-Gateway-User-ID";
   "X-Gateway-User-Email"; "X-Gateway-User-Roles"; "X-Gateway-Tenant-ID";
   "X-Gateway-Source"; "X-Internal-API-Key"].

(** Header names are case-insensitive: a mapping carries the header [name]
    when one of its keys spells [name] in some letter case. *)
Definition carries (name : string) (h : gmap string string) : Prop :=
  ∃ k v, h !! k = Some v ∧ lower k = lower name.

(** The names removed on the way out. *)
Definition stripped_headers : list string :=
  "authorization" :: hop_by_hop_headers.

End Proxy.

(** ** logging.py *)

Module Logging.

(** The dictionaries handed to [audit_logger.info]. *)
Inductive AuditRecord :=
  | request_received (method path client_ip : string)
                     (user_agent : option string)
  | request_completed (status_code : Z) (path : string).

Inductive Handler :=
  | FileHandler (filename : string)
  | StreamHandler.

Record Logger := mkLogger {
  logger_name : string;
  logger_handler : Handler
}.

(** [setup_audit_logging]; the arguments are the two environment
    variables it reads. *)
Definition setup_audit_logging
    (JAI_AUDIT_ENABLED JAI_AUDIT_LOG_FILE : option string) : option Logger :=
  let audit_enabled :=
    bool_decide (lower (default "true" JAI_AUDIT_ENABLED) = "true") in
  if negb audit_enabled then None
  else
    let handler :=
      match JAI_AUDIT_LOG_FILE with
      | Some audit_log_file =>
          if nonempty audit_log_file then FileHandler audit_log_file
          else StreamHandler
      | None => StreamHandler
      end in
    Some {| logger_name := "jai-mcp.gateway.audit";
            logger_handler := handler |}.

End Logging.

(** ** logging.py, the formatter and the operation log *)

Module AuditFormat.
Import Auth Logging.

(** The values of log fields: strings, integers, [None], and the detail
    payload of an operation. *)
Inductive Value :=
  | VStr (s : string)
  | VInt (n : Z)
  | VNone
  | VDict (d : gmap string string).

Definition of_option (o : option string) : Value :=
  match o with
  | Some s => VStr s
  | None => VNone
  end.

(** [record.msg]: a dictionary, or anything else, of which the formatter
    takes [str(record.msg)]. *)
Inductive Message :=
  | DictMessage (fields : gmap string Value)
  | TextMessage (text : string).

(** A [logging.LogRecord]: the attributes the formatter reads by name, and
    [record.__dict__] with all attributes, the standard ones included. *)
Record LogRecord := mkLogRecord {
  rec_name : string;
  rec_levelname : string;
  rec_msg : Message;
  rec_dict : gmap string Value
}.

(** The attribute names the formatter leaves out. *)
Definition standard_attributes : list string :=
  ["name"; "msg"; "args"; "levelname"; "levelno"; "pathname"; "filename";
   "module"; "exc_info"; "exc_text"; "stack_info"; "lineno"; "funcName";
   "created"; "msecs"; "relativeCreated"; "thread"; "threadName";
   "processName"; "process"; "message"].

(** [AuditLogFormatter.format] up to its last line: the [log_entry] that
    [json.dumps] is given.  [timestamp] is [datetime.utcnow().isoformat()]
    at the time of formatting. *)
Definition log_entry (timestamp : string) (record : LogRecord)
  : gmap string Value :=
  let entry : gmap string Value :=
    <["logger" := VStr (rec_name record)]>
      (<["level" := VStr (rec_levelname record)]>
         (<["timestamp" := VStr timestamp]> ∅)) in
  let entry :=
    match rec_msg record with
    | DictMessage fields => fields ∪ entry
    | TextMessage text => <["message" := VStr text]> entry
    end in
  foldl (fun acc kv =>
           if bool_decide (kv.1 ∈ standard_attributes) then acc
           else <[kv.1 := kv.2]> acc)
        entry (map_to_list (rec_dict record)).

(** The dictionaries [audit_middleware] hands to the logger. *)
Definition record_fields (r : AuditRecord) : gmap string Value :=
  match r with
  | request_received method path client_ip user_agent =>
      <["event" := VStr "request_received"]>
        (<["method" := VStr method]>
           (<["path" := VStr path]>
              (<["client_ip" := VStr client_ip]>
                 (<["user_agent" := of_option user_agent]> ∅))))
  | request_completed status_code path =>
      <["event" := VStr "request_completed"]>
        (<["status_code" := VInt status_code]>
           (<["path" := VStr path]> ∅))
  end.

(** [log_mcp_operation]: the dictionary handed to [audit_logger.info],
    [None] when there is no logger.  [timestamp] is
    [datetime.utcnow().isoformat()] at the time of the call. *)
Definition log_mcp_operation (audit_logger : option Logger)
    (operation : string) (user : User) (tenant : string)
    (details : option (gmap string string)) (timestamp : string)
  : option (gmap string Value) :=
  match audit_logger with
  | None => None
  | Some _ =>
      let log_data : gmap string Value :=
        <["event_type" := VStr "mcp_operation"]>
          (<["operation" := VStr operation]>
             (<["user_id" := of_option (u_id user)]>
                (<["user_email" := of_option (u_email user)]>
                   (<["tenant_id" := VStr tenant]>
                      (<["timestamp" := VStr timestamp]> ∅))))) in
      Some match details with
           | Some d =>
               if bool_decide (d = ∅) then log_data
               else <["details" := VDict d]> log_data
           | None => log_data
           end
  end.

(** The record [audit_logger.info(fields)] creates: the logger's name,
    level INFO, the dictionary as message. *)
Definition info_record (logger : Logger) (fields : gmap string Value)
    (attributes : gmap string Value) : LogRecord :=
  {| rec_name := logger_name logger;
     rec_levelname := "INFO";
     rec_msg := DictMessage fields;
     rec_dict := attributes |}.

End AuditFormat.

(** ** The rate limiter *)

Module Limiter.

(** Modelled from the spec: [slowapi.Limiter] is a library class and not
    part of the repository.  Section 4.4: a per-key fixed-window counter; a
    key may make at most N requests per window of W seconds, the window
    starts at the key's first request in it, counters of different keys are
    independent, and the state per key is a counter and a window start.
    Time is in whole seconds. *)
Definition hit (limit window now : nat) (key : string)
    (storage : gmap string (nat * nat)) : bool * gmap string (nat * nat) :=
  match storage !! key with
  | Some (count, window_start) =>
      if (now <? window_start + window)%nat then
        if (count <? limit)%nat
        then (true, <[key := (S count, window_start)]> storage)
        else (false, storage)
      else (true, <[key := (1%nat, now)]> storage)
  | None => (true, <[key := (1%nat, now)]> storage)
  end.

(** A run of calls by one key, at the given times. *)
Fixpoint hits (limit window : nat) (times : list nat) (key : string)
    (storage : gmap string (nat * nat))
  : list bool * gmap string (nat * nat) :=
  match times with
  | [] => ([], storage)
  | now :: later =>
      let '(allowed, storage) := hit limit window now key storage in
      let '(rest, storage) := hits limit window later key storage in
      (allowed :: rest, storage)
  end.

(** [slowapi.util.get_remote_address] *)
Definition get_remote_address (request : Request) : string :=
  match req_client_host request with
  | Some host => if nonempty host then host else "127.0.0.1"
  | None => "127.0.0.1"
  end.

End Limiter.

(** ** main.py *)

Module Main.
Import Auth Proxy Logging.

(** Response bodies: the [{"detail": ...}] of an [HTTPException], the
    [{"error": ...}] of the rate-limit handler, the health document, and the
    data the proxy endpoint returns. *)
Inductive Content :=
  | Detail (detail : string)
  | RateLimitExceeded (limit : string)
  | Healthy (service : string)
  | Data (data : ResponseData).

Record Response := mkResponse {
  resp_status : Z;
  resp_body : Content
}.

(** The state of the running service apart from the audit sink: the global
    [proxy] (unset before startup), the limiter's storage, and the calls
    made on the outbound client so far. *)
Record Gateway := mkGateway {
  proxy : option JaiAPIProxy;
  limiter_storage : gmap string (nat * nat);
  upstream_calls : list OutboundRequest
}.

(** FastAPI turns a raised [HTTPException] into a response. *)
Definition http_exception_handler (e : HTTPException) : Response :=
  {| resp_status := exc_status_code e; resp_body := Detail (exc_detail e) |}.

(** [_rate_limit_exceeded_handler] *)
Definition rate_limit_exceeded_handler (limit : string) : Response :=
  {| resp_status := 429; resp_body := RateLimitExceeded limit |}.

(** [health_check] *)
Definition health_check : Response :=
  {| resp_status := 200; resp_body := Healthy "jai-mcp-gateway" |}.

Section Service.

(** Module-level configuration read from the environment. *)
Variable ALLOWED_ADMINS : list string.
Variable JAI_INTERNAL_API_KEY : option string.

(** The body of [proxy_request], called with the values of its
    parameters. *)
Definition proxy_request (request : Request) (path : string)
    (admin_user : User) (tenant : string) (g : Gateway)
  : Response * Gateway :=
  match proxy g with
  | None =>
      (http_exception_handler (mkHTTPException 503 "Gateway not ready"), g)
  | Some p =>
      let '(headers, σ) := Dict.new (req_headers request) ∅ in
      let body :=
        if str_in (req_method request) ["POST"; "PUT"]
        then Some (req_body request) else None in
      let fw :=
        forward_request p JAI_INTERNAL_API_KEY (req_method request) path
                        headers body tenant admin_user σ in
      let g' :=
        {| proxy := proxy g;
           limiter_storage := limiter_storage g;
           upstream_calls := (upstream_calls g ++ [fw_sent fw])%list |} in
      match fw_result fw with
      | inl response_data =>
          ({| resp_status := 200; resp_body := Data response_data |}, g')
      | inr _ =>
          (http_exception_handler
             (mkHTTPException 500 "Internal server error"), g')
      end
  end.

(** The call [proxy_request] makes on the outbound client. *)
Definition outbound_call (request : Request) (path : string)
    (admin_user : User) (tenant : string) : OutboundRequest :=
  {| out_method := req_method request;
     out_url := "/" ++ lstrip_slash path;
     out_headers :=
       rewrite_headers JAI_INTERNAL_API_KEY (req_headers request)
                       tenant admin_user;
     out_content :=
       if str_in (req_method request) ["POST"; "PUT"]
       then Some (req_body request) else None |}.

(** [@limiter.limit("60/minute")]: the decorator wraps the endpoint; the
    wrapper counts the call against the caller's address and raises
    [RateLimitExceeded], answered by the registered handler, when the
    window is used up. *)
Definition limit (now : nat) (request : Request)
    (endpoint : Gateway -> Response * Gateway) (g : Gateway)
  : Response * Gateway :=
  let '(allowed, storage) :=
    Limiter.hit 60 60 now (Limiter.get_remote_address request)
                (limiter_storage g) in
  let g' :=
    {| proxy := proxy g;
       limiter_storage := storage;
       upstream_calls := upstream_calls g |} in
  if allowed then endpoint g'
  else (rate_limit_exceeded_handler "60 per 1 minute", g').

(** The [admin_user] dependency: [security], then [verify_api_key], then
    [verify_admin_access]. *)
Definition admin_user_dependency (request : Request) : result User :=
  api_key ← verify_api_key (security (headers_get "Authorization" request));
  verify_admin_access ALLOWED_ADMINS api_key.

(** The route [/api/{path:path}].  FastAPI first evaluates the [Depends]
    parameters of the endpoint, in the order they are declared, and answers
    with the handler's response as soon as one raises; only then does it
    call the endpoint, which is the limiter's wrapper around
    [proxy_request].  No rate-limiting middleware is installed, only the
    exception handler. *)
Definition api_route (now : nat) (request : Request) (path : string)
    (g : Gateway) : Response * Gateway :=
  match admin_user_dependency request with
  | Raise e => (http_exception_handler e, g)
  | Ok admin_user =>
      match get_tenant_from_request request with
      | Raise e => (http_exception_handler e, g)
      | Ok tenant =>
          limit now request (proxy_request request path admin_user tenant) g
      end
  end.

End Service.

(** [audit_middleware].  [audit_logger] is the module global set at
    startup, [sink] is what the logger's handler has received so far, and
    [call_next] is the rest of the application, which has no access to the
    audit logger and answers with a response: what the endpoints raise is
    an [HTTPException] or the limiter's exception, and both are turned into
    responses before they reach the middleware. *)
Definition audit_middleware {St : Type} (audit_logger : option Logger)
    (call_next : Request -> St -> Response * St)
    (request : Request) (st : St) (sink : list AuditRecord)
  : Response * St * list AuditRecord :=
  let sink :=
    match audit_logger with
    | Some _ =>
        (sink ++ [request_received (req_method request) (req_path request)
                    (Limiter.get_remote_address request)
                    (headers_get "user-agent" request)])%list
    | None => sink
    end in
  let '(response, st) := call_next request st in
  let sink :=
    match audit_logger with
    | Some _ =>
        (sink ++ [request_completed (resp_status response)
                                    (req_path request)])%list
    | None => sink
    end in
  (response, st, sink).

End Main.

(** ** main.py, start-up *)

Module Startup.
Import Proxy Logging Main.

(** [JaiAPIProxy.__init__]: the URL from [JAI_INTERNAL_API_URL] or the
    default, [timeout] the integer [JAI_PROXY_TIMEOUT] parses to, [client]
    the [httpx.AsyncClient] built for them. *)
Definition new_proxy (JAI_INTERNAL_API_URL : option string) (timeout : Z)
    (client : OutboundRequest -> ClientOutcome) : JaiAPIProxy :=
  {| internal_api_url :=
       default "http://localhost:8000" JAI_INTERNAL_API_URL;
     timeout := timeout;
     _client := client |}.

(** The start-up half of [lifespan]: the two module globals are set. *)
Definition startup (JAI_INTERNAL_API_URL : option string) (timeout : Z)
    (client : OutboundRequest -> ClientOutcome)
    (JAI_AUDIT_ENABLED JAI_AUDIT_LOG_FILE : option string) (g : Gateway)
  : Gateway * option Logger :=
  ({| proxy := Some (new_proxy JAI_INTERNAL_API_URL timeout client);
      limiter_storage := limiter_storage g;
      upstream_calls := upstream_calls g |},
   setup_audit_logging JAI_AUDIT_ENABLED JAI_AUDIT_LOG_FILE).

End Startup.

(** ** config.py and server.py *)

Module Config.

(** The module-level settings the server and the client read.
    [REQUEST_TIMEOUT] is the integer the variable parses to. *)
Record Settings := mkSettings {
  JAI_API_KEY : option string;
  JAI_TENANT : option string;
  JAI_MCP_ENDPOINT : option string;
  REQUEST_TIMEOUT : Z
}.

(** The three [os.getenv] calls; only the endpoint has a default. *)
Definition load (getenv : string -> option string) (request_timeout : Z)
  : Settings :=
  {| JAI_API_KEY := getenv "JAI_API_KEY";
     JAI_TENANT := getenv "JAI_TENANT";
     JAI_MCP_ENDPOINT :=
       Some (default "https://mcp.jai.com" (getenv "JAI_MCP_ENDPOINT"));
     REQUEST_TIMEOUT := request_timeout |}.

End Config.

(** Python truthiness of an optional string: set and not empty. *)
Definition truthy (value : option string) : bool :=
  match value with
  | Some s => nonempty s
  | None => false
  end.

Module Server.
Import Config.

Inductive Outcome :=
  | SysExit (code : Z)
  | Serving.

(** The list [main] collects before it decides. *)
Definition missing_config (cfg : Settings) : list string :=
  ((if truthy (JAI_API_KEY cfg) then [] else ["JAI_API_KEY"])
   ++ (if truthy (JAI_TENANT cfg) then [] else ["JAI_TENANT"])
   ++ (if truthy (JAI_MCP_ENDPOINT cfg) then [] else ["JAI_MCP_ENDPOINT"]))%list.

(** [main]: the lines logged as errors and whether the server runs. *)
Definition main (cfg : Settings) : list string * Outcome :=
  match missing_config cfg with
  | [] => ([], Serving)
  | missing =>
      (("Missing required configuration: " ++ join ", " missing)
       :: "Please set the required environment variables or create a .env file"
       :: "Example:"
       :: map (fun var => "  export " ++ var ++ "=your-value") missing,
       SysExit 1)
  end.

End Server.

(** ** client/api.py *)

Module Client.
Import Config.

(** The exceptions that occur, with the text [str(e)] gives. *)
Inductive Exception :=
  | ValueError (message : string)
  | JaiAPIError (message : string).

Definition str (e : Exception) : string :=
  match e with
  | ValueError message => message
  | JaiAPIError message => message
  end.

(** [a or b] on optional strings *)
Definition or_else (a b : option string) : option string :=
  if truthy a then a else b.

(** A [JaiAPIClient]; [is_closed] is the state of its [httpx.AsyncClient]. *)
Record JaiAPIClient := mkClient {
  api_key : string;
  tenant : string;
  endpoint : string;
  timeout : Z;
  headers : gmap string string;
  is_closed : bool
}.

(** [JaiAPIClient.__init__] *)
Definition init (cfg : Settings) (api_key tenant endpoint : option string)
    (timeout : option Z) : Exception + JaiAPIClient :=
  let api_key := or_else api_key (JAI_API_KEY cfg) in
  let tenant := or_else tenant (JAI_TENANT cfg) in
  let endpoint := or_else endpoint (JAI_MCP_ENDPOINT cfg) in
  let timeout :=
    match timeout with
    | Some t => if bool_decide (t = 0) then REQUEST_TIMEOUT cfg else t
    | None => REQUEST_TIMEOUT cfg
    end in
  match api_key, tenant, endpoint with
  | Some k, Some t, Some e =>
      if (nonempty k && nonempty t && nonempty e)%bool then
        inr {| api_key := k; tenant := t; endpoint := e; timeout := timeout;
               headers :=
                 <["X-API-Key" := k]>
                   (<["X-Tenant-ID" := t]>
                      (<["Content-Type" := "application/json"]> ∅));
               is_closed := false |}
      else inl (ValueError "API key, tenant, and endpoint are required")
  | _, _, _ => inl (ValueError "API key, tenant, and endpoint are required")
  end.

(** What the [json=] argument of a request holds. *)
Inductive Field :=
  | FStr (s : string)
  | FList (l : list string).

Record Call := mkCall {
  call_method : string;
  call_path : string;
  call_json : option (list (string * Field))
}.

(** What happens inside the [try] of [request] on an open client: the
    decoded JSON of a successful response, an [HTTPStatusError] from
    [raise_for_status] with the status code, or any other exception with
    its text. *)
Inductive Outcome :=
  | Decoded (json : string)
  | StatusError (status_code : Z)
  | Failed (message : string).

(** [JaiAPIClient.request]: the result and the calls handed to the
    transport.  An [httpx] client that has been closed refuses to send
    and raises a [RuntimeError] with the text below. *)
Definition request (transport : Call -> Outcome) (self : JaiAPIClient)
    (call : Call) : (Exception + string) * list Call :=
  if is_closed self then
    (inl (JaiAPIError
            ("Request failed: "
             ++ "Cannot send a request, as the client has been closed.")),
     [])
  else
    match transport call with
    | Decoded json => (inr json, [call])
    | StatusError status_code =>
        (inl (JaiAPIError ("API request failed: " ++ pretty status_code)),
         [call])
    | Failed message =>
        (inl (JaiAPIError ("Request failed: " ++ message)), [call])
    end.

(** The process: the module-level singleton and the calls made so far. *)
Record World := mkWorld {
  _client : option JaiAPIClient;
  calls : list Call
}.

(** [get_client] *)
Definition get_client (cfg : Settings) (w : World)
  : (Exception + JaiAPIClient) * World :=
  match _client w with
  | Some client => (inr client, w)
  | None =>
      match init cfg None None None None with
      | inl e => (inl e, w)
      | inr client =>
          (inr client, {| _client := Some client; calls := calls w |})
      end
  end.

(** [__aexit__]: the client's connection is closed. *)
Definition aexit (self : JaiAPIClient) : JaiAPIClient :=
  {| api_key := api_key self; tenant := tenant self;
     endpoint := endpoint self; timeout := timeout self;
     headers := headers self; is_closed := true |}.

End Client.

(** ** tools/health.py and tools/modules.py *)

Module Tools.
Import Config Client.

(** The frame every tool has: [client = await get_client()], then
    [async with client:] around the body, all inside a [try] whose handler
    formats the exception.  The client the body uses is the singleton
    itself, so leaving the [with] block closes the singleton. *)
Definition with_client {A : Type} (cfg : Settings) (w : World)
    (body : JaiAPIClient -> (Exception + A) * list Call)
  : (Exception + A) * World :=
  match get_client cfg w with
  | (inl e, w) => (inl e, w)
  | (inr client, w) =>
      let '(result, made) := body client in
      (result,
       {| _client := Some (aexit client);
          calls := (calls w ++ made)%list |})
  end.

(** [check_api_endpoints] *)
Definition check_api_endpoints (cfg : Settings) (transport : Call -> Outcome)
    (w : World) : string * World :=
  match with_client cfg w
          (fun client => request transport client (mkCall "GET" "/health" None))
  with
  | (inr _, w) => ("✅ API endpoints are accessible", w)
  | (inl e, w) => ("❌ API endpoints unreachable: " ++ str e, w)
  end.

(** [delete_module] *)
Definition delete_module (cfg : Settings) (transport : Call -> Outcome)
    (module_id : string) (confirm : bool) (w : World) : string * World :=
  if negb confirm then
    ("❌ Deletion requires confirmation. Set confirm=True to proceed. "
     ++ "WARNING: This action cannot be undone.", w)
  else
    match with_client cfg w
            (fun client =>
               request transport client
                       (mkCall "DELETE" ("/modules/" ++ module_id) None))
    with
    | (inr _, w) => ("✅ Module " ++ module_id ++ " deleted successfully", w)
    | (inl e, w) =>
        ("❌ Failed to delete module " ++ module_id ++ ": " ++ str e, w)
    end.

(** The [update_data] dictionary of [update_module], in insertion order. *)
Definition update_data (name description : option string)
    (examples tags : option (list string)) : list (string * Field) :=
  (match name with Some v => [("name", FStr v)] | None => [] end
   ++ match description with
      | Some v => [("description", FStr v)]
      | None => []
      end
   ++ match examples with Some v => [("examples", FList v)] | None => [] end
   ++ match tags with Some v => [("tags", FList v)] | None => [] end)%list.

(** [update_module] *)
Definition update_module (cfg : Settings) (transport : Call -> Outcome)
    (module_id : string) (name description : option string)
    (examples tags : option (list string)) (w : World) : string * World :=
  let data := update_data name description examples tags in
  match with_client cfg w
          (fun client =>
             match data with
             | [] => (inr None, [])
             | _ :: _ =>
                 match request transport client
                         (mkCall "PUT" ("/modules/" ++ module_id) (Some data))
                 with
                 | (inr _, made) => (inr (Some (join ", " data.*1)), made)
                 | (inl e, made) => (inl e, made)
                 end
             end)
  with
  | (inr None, w) =>
      ("❌ No updates provided. "
       ++ "Please specify at least one field to update.", w)
  | (inr (Some updated_fields), w) =>
      ("✅ Module " ++ module_id
       ++ " updated successfully. Updated fields: " ++ updated_fields, w)
  | (inl e, w) =>
      ("❌ Failed to update module " ++ module_id ++ ": " ++ str e, w)
  end.

End Tools.

(** ** Sample values *)

Module Samples.
Import Auth Proxy Logging Main.

Definition viewer : User :=
  mkUser (Some "u-7") (Some "viewer@example.com") (Some ["viewer"])
         (Some "t1") None.

Definition org_admin_t1 : User :=
  mkUser (Some "u-9") (Some "lead@example.com") (Some ["org_admin"])
         (Some "t1") None.

Definition token : string := "0123456789abcdef0123456789abcdef".

(** [GET /api/modules] from 10.0.0.1 with a well-formed bearer token and
    tenant header [t2]. *)
Definition request_modules : Request :=
  {| req_method := "GET";
     req_path := "/api/modules";
     req_client_host := Some "10.0.0.1";
     req_headers :=
       <["authorization" := "Bearer " ++ token]>
         (<["x-tenant-id" := "t2"]> (<["user-agent" := "curl/8.5"]> ∅));
     req_body := EmptyString |}.

(** The same request without an Authorization header. *)
Definition request_anonymous : Request :=
  {| req_method := "GET";
     req_path := "/api/modules";
     req_client_host := Some "10.0.0.1";
     req_headers := <["x-tenant-id" := "t2"]> (<["user-agent" := "curl/8.5"]> ∅);
     req_body := EmptyString |}.

(** The same request with basic authentication, and with a bearer token
    of 8 characters. *)
Definition request_basic : Request :=
  {| req_method := "GET";
     req_path := "/api/modules";
     req_client_host := Some "10.0.0.1";
     req_headers :=
       <["authorization" := "Basic dXNlcjpwYXNz"]>
         (<["x-tenant-id" := "t2"]> ∅);
     req_body := EmptyString |}.

Definition request_short_token : Request :=
  {| req_method := "GET";
     req_path := "/api/modules";
     req_client_host := Some "10.0.0.1";
     req_headers :=
       <["authorization" := "Bearer 01234567"]>
         (<["x-tenant-id" := "t2"]> ∅);
     req_body := EmptyString |}.

(** An upstream that answers every call with [200] and a JSON body, and one
    that answers every call with [404]. *)
Definition upstream_ok : OutboundRequest -> ClientOutcome :=
  fun _ => Responded (mkUpstream 200 (Some "{'modules': []}") "{'modules': []}").

Definition response_404 : UpstreamResponse :=
  mkUpstream 404 (Some "{'detail': 'Not Found'}") "{'detail': 'Not Found'}".

Definition upstream_not_found : OutboundRequest -> ClientOutcome :=
  fun _ => Responded response_404.

Definition gateway_with (client : OutboundRequest -> ClientOutcome)
    (storage : gmap string (nat * nat)) : Gateway :=
  {| proxy := Some (mkProxy "http://localhost:8000" 30 client);
     limiter_storage := storage;
     upstream_calls := [] |}.

(** Inbound headers with mixed-case names, as a caller of
    [forward_request] other than the endpoint could pass them. *)
Definition mixed_case_headers : gmap string string :=
  <["Authorization" := "Bearer secret"]>
    (<["Connection" := "close"]> (<["te" := "trailers"]> ∅)).

(** 10.0.0.1 has used its 60 requests in the window that began at second 0. *)
Definition storage_exhausted : gmap string (nat * nat) :=
  {[ "10.0.0.1" := (60%nat, 0%nat) ]}.

End Samples.

(** * Properties *)

Import Auth Proxy Logging Main Samples.

(** ** Authentication and authorization *)

Lemma str_in_In (s : string) (l : list string) :
  str_in s l = true ↔ In s l.
Proof.
  unfold str_in. rewrite existsb_exists. split.
  - intros (x & Hx & Heq). apply String.eqb_eq in Heq. by subst.
  - intros Hin. exists s. split; [done | apply String.eqb_refl].
Qed.

Lemma str_in_not_In (s : string) (l : list string) :
  str_in s l = false ↔ ¬ In s l.
Proof.
  rewrite <- str_in_In. destruct (str_in s l); split; congruence.
Qed.

Lemma has_admin_role_spec (roles : list string) :
  existsb (fun role => str_in role admin_roles) roles = true
  ↔ ∃ role, In role roles ∧ In role admin_roles.
Proof.
  rewrite existsb_exists. split; intros (r & Hr & Ha); exists r;
    (split; [done | by apply str_in_In]).
Qed.

Lemma no_admin_role_spec (roles : list string) :
  existsb (fun role => str_in role admin_roles) roles = false
  ↔ ∀ role, In role roles → ¬ In role admin_roles.
Proof.
  split.
  - intros Hf role Hin Hadm.
    assert (existsb (fun role => str_in role admin_roles) roles = true)
      as Ht by (apply has_admin_role_spec; eauto).
    congruence.
  - intros Hall.
    destruct (existsb _ roles) eqn:E; [| done].
    apply has_admin_role_spec in E as (r & Hr & Ha).
    by destruct (Hall r Hr).
Qed.

(** C6.  An identity none of whose roles is [system_admin] or [org_admin]
    is refused with 403 "MCP access requires admin privileges"; when the
    allow-list of admin e-mails is non-empty, an identity that has an admin
    role but whose e-mail is not on the list is refused with 403 "Admin not
    authorized for MCP access". *)
Theorem check_admin_forbidden (ALLOWED_ADMINS : list string) (user : User) :
  ((∀ role, In role (roles_of user) → ¬ In role ["system_admin"; "org_admin"])
   → check_admin ALLOWED_ADMINS user
     = Raise (mkHTTPException 403 "MCP access requires admin privileges"))
  ∧ ((∃ role, In role (roles_of user)
              ∧ In role ["system_admin"; "org_admin"])
     → ALLOWED_ADMINS ≠ []
     → ¬ In (email_of user) ALLOWED_ADMINS
     → check_admin ALLOWED_ADMINS user
       = Raise (mkHTTPException 403 "Admin not authorized for MCP access")).
Proof.
  split.
  - intros Hnone. apply no_admin_role_spec in Hnone.
    unfold check_admin, roles_of in *. by rewrite Hnone.
  - intros Hsome Hne Hmail. apply has_admin_role_spec in Hsome.
    apply str_in_not_In in Hmail.
    unfold check_admin, roles_of, email_of in *. rewrite Hsome. simpl.
    destruct ALLOWED_ADMINS as [| a rest]; [done |]. by rewrite Hmail.
Qed.

Lemma check_admin_forbidden_witness :
  check_admin [] viewer
  = Raise (mkHTTPException 403 "MCP access requires admin privileges")
  ∧ check_admin ["root@example.com"] org_admin_t1
    = Raise (mkHTTPException 403 "Admin not authorized for MCP access").
Proof.
  split.
  - apply (proj1 (check_admin_forbidden [] viewer)).
    simpl. intros role [<- | []] [H | [H | []]]; discriminate H.
  - apply (proj2 (check_admin_forbidden ["root@example.com"] org_admin_t1)).
    + exists "org_admin". simpl. auto.
    + discriminate.
    + simpl. intros [H | []]. discriminate H.
Defined.

(** With an admin role, the check passes when the allow-list is empty or
    names the e-mail address. *)
Lemma check_admin_granted (ALLOWED_ADMINS : list string) (user : User) :
  (∃ role, In role (roles_of user) ∧ In role admin_roles) →
  ALLOWED_ADMINS = [] ∨ In (email_of user) ALLOWED_ADMINS →
  check_admin ALLOWED_ADMINS user = Ok user.
Proof.
  intros Hsome Hallow. apply has_admin_role_spec in Hsome.
  unfold check_admin, roles_of, email_of in *. rewrite Hsome. simpl.
  destruct Hallow as [-> | Hin]; [done |].
  apply str_in_In in Hin. destruct ALLOWED_ADMINS; [done |]. by rewrite Hin.
Qed.


Lemma security_absent : security None = None.
Proof. reflexivity. Qed.

Lemma security_not_bearer (value : string) :
  lower (partition_space value).1 ≠ "bearer" →
  security (Some value) = None.
Proof.
  intros Hsch. unfold security.
  destruct (partition_space value) as [sch [param |]]; [| done].
  simpl in Hsch. rewrite (bool_decide_eq_false_2 _ Hsch).
  by rewrite andb_false_r.
Qed.

Lemma verify_api_key_short (c : HTTPAuthorizationCredentials) :
  (String.length (credentials c) < 32)%nat →
  verify_api_key (Some c) = Raise (mkHTTPException 401 "Invalid API key").
Proof.
  intros Hlen. unfold verify_api_key.
  apply Nat.ltb_lt in Hlen. rewrite Hlen. by rewrite orb_true_r.
Qed.

Lemma verify_api_key_long (sch api_key : string) :
  (32 ≤ String.length api_key)%nat →
  verify_api_key (Some (mkCredentials sch api_key)) = Ok api_key.
Proof.
  intros Hlen. unfold verify_api_key. simpl.
  assert ((String.length api_key <? 32)%nat = false) as ->
    by (apply Nat.ltb_ge; lia).
  destruct api_key; [simpl in Hlen; lia | reflexivity].
Qed.

(** The credential extractor followed by [verify_api_key] ends in 401 in
    each of the three cases. *)
Lemma credential_rejected (authorization : option string) :
  authorization = None
  ∨ (∃ value, authorization = Some value
              ∧ lower (partition_space value).1 ≠ "bearer")
  ∨ (∃ c, security authorization = Some c
          ∧ (String.length (credentials c) < 32)%nat) →
  ∃ detail, verify_api_key (security authorization)
            = Raise (mkHTTPException 401 detail).
Proof.
  intros [-> | [(value & -> & Hsch) | (c & Hc & Hlen)]].
  - by exists "API key required".
  - rewrite security_not_bearer by done. by exists "API key required".
  - rewrite Hc. exists "Invalid API key". by apply verify_api_key_short.
Qed.



(** ** The route *)

(** With the proxy set up, [proxy_request] makes exactly the call
    [outbound_call] and answers from the client's outcome alone. *)
Lemma proxy_request_ready (KEY : option string) (request : Request)
    (path : string) (admin_user : User) (tenant : string) (g : Gateway)
    (p : JaiAPIProxy) :
  proxy g = Some p →
  proxy_request KEY request path admin_user tenant g
  = (match _client p (outbound_call KEY request path admin_user tenant) with
     | Responded r =>
         if 400 <=? status_code r
         then http_exception_handler
                (mkHTTPException 500 "Internal server error")
         else {| resp_status := 200;
                 resp_body :=
                   Data match resp_json r with
                        | Some value => JsonData value
                        | None => RawContent (resp_content r)
                        end |}
     | Unreachable _ =>
         http_exception_handler (mkHTTPException 500 "Internal server error")
     end,
     {| proxy := proxy g;
        limiter_storage := limiter_storage g;
        upstream_calls :=
          (upstream_calls g
           ++ [outbound_call KEY request path admin_user tenant])%list |}).
Proof.
  intros Hp. unfold proxy_request, outbound_call, rewrite_headers.
  rewrite Hp. unfold forward_request.
  destruct (Dict.new (req_headers request) ∅) as [headers σ].
  destruct (outbound_headers KEY headers tenant admin_user σ)
    as [internal_headers σ'].
  simpl.
  destruct (_client p _) as [r | m]; [| done].
  destruct (400 <=? status_code r); [done |].
  by destruct (resp_json r).
Qed.

(** Whatever the identity and the tenant it is called with, the endpoint
    answers 200, 500 or 503: it has no 403 of its own. *)
Lemma proxy_request_status (KEY : option string) (request : Request)
    (path : string) (admin_user : User) (tenant : string) (g : Gateway) :
  resp_status (proxy_request KEY request path admin_user tenant g).1
  ∈ [200; 500; 503].
Proof.
  destruct (proxy g) as [p |] eqn:Hp.
  - rewrite (proxy_request_ready _ _ _ _ _ _ _ Hp). simpl.
    destruct (_client p _) as [r | m]; [| simpl; set_solver].
    destruct (400 <=? status_code r); simpl; set_solver.
  - unfold proxy_request. rewrite Hp. simpl. set_solver.
Qed.




(** The limiter turns away a key that has used up its window and leaves
    the storage as it was. *)
Lemma hit_exhausted (limit window now : nat) (key : string)
    (storage : gmap string (nat * nat)) (count window_start : nat) :
  storage !! key = Some (count, window_start) →
  (limit ≤ count)%nat → (now < window_start + window)%nat →
  Limiter.hit limit window now key storage = (false, storage).
Proof.
  intros Hk Hc Hw. unfold Limiter.hit. rewrite Hk.
  apply Nat.ltb_lt in Hw. rewrite Hw.
  assert ((count <? limit)%nat = false) as -> by (apply Nat.ltb_ge; lia).
  done.
Qed.

(** Below the limit the call is counted and let through. *)
Lemma hit_below (limit window now : nat) (key : string)
    (storage : gmap string (nat * nat)) (count window_start : nat) :
  storage !! key = Some (count, window_start) →
  (count < limit)%nat → (now < window_start + window)%nat →
  Limiter.hit limit window now key storage
  = (true, <[key := (S count, window_start)]> storage).
Proof.
  intros Hk Hc Hw. unfold Limiter.hit. rewrite Hk.
  apply Nat.ltb_lt in Hw, Hc. by rewrite Hw, Hc.
Qed.

(** A key with [count] calls in the window started at [window_start] that
    makes further calls inside the window has them all admitted and counted
    as long as the limit is not passed. *)
Lemma hits_in_window (limit window : nat) (times : list nat) (key : string)
    (storage : gmap string (nat * nat)) (count window_start : nat) :
  storage !! key = Some (count, window_start) →
  Forall (fun now => (now < window_start + window)%nat) times →
  (count + length times ≤ limit)%nat →
  Limiter.hits limit window times key storage
  = (repeat true (length times),
     <[key := ((count + length times)%nat, window_start)]> storage).
Proof.
  revert storage count.
  induction times as [| now later IH]; intros storage count Hk Hall Hlen.
  - simpl. rewrite Nat.add_0_r. by rewrite insert_id.
  - apply Forall_cons in Hall as [Hnow Hlater]. simpl in Hlen |- *.
    rewrite (hit_below _ _ _ _ _ _ _ Hk) by lia.
    rewrite (IH _ (S count)); [| by rewrite lookup_insert_eq | done | lia].
    rewrite insert_insert_eq. do 3 f_equal. lia.
Qed.




(** C3, as the code has it.  [forward_request] raises [HTTPStatusError]
    with the upstream response when its status is in 4xx/5xx and the
    distinct [RequestError] when the upstream cannot be reached; the
    endpoint catches both and answers 500 "Internal server error", so
    neither the upstream status nor the difference between the two reaches
    the caller. *)
Theorem upstream_failures_masked (KEY : option string) (request : Request)
    (path : string) (admin_user : User) (tenant : string) (g : Gateway)
    (p : JaiAPIProxy) :
  proxy g = Some p →
  (∀ (headers : Dict.loc) (body : option string)
     (σ : gmap Dict.loc (gmap string string)),
     let fw := forward_request p KEY (req_method request) path headers body
                               tenant admin_user σ in
     (∀ r, _client p (fw_sent fw) = Responded r →
           400 ≤ status_code r < 600 →
           fw_result fw = inr (HTTPStatusError r))
     ∧ (∀ m, _client p (fw_sent fw) = Unreachable m →
             fw_result fw = inr (RequestError m)))
  ∧ (∀ r, _client p (outbound_call KEY request path admin_user tenant)
          = Responded r →
          400 ≤ status_code r < 600 →
          (proxy_request KEY request path admin_user tenant g).1
          = {| resp_status := 500;
               resp_body := Detail "Internal server error" |})
  ∧ (∀ m, _client p (outbound_call KEY request path admin_user tenant)
          = Unreachable m →
          (proxy_request KEY request path admin_user tenant g).1
          = {| resp_status := 500;
               resp_body := Detail "Internal server error" |}).
Proof.
  intros Hp. repeat split.
  - intros r Hr [Hs _]. unfold forward_request in *.
    destruct (outbound_headers KEY headers tenant admin_user σ) as [l σ'].
    simpl in *. rewrite Hr.
    by rewrite (proj2 (Z.leb_le 400 (status_code r)) Hs).
  - intros m Hm. unfold forward_request in *.
    destruct (outbound_headers KEY headers tenant admin_user σ) as [l σ'].
    simpl in *. by rewrite Hm.
  - intros r Hr [Hs _]. rewrite (proxy_request_ready _ _ _ _ _ _ _ Hp), Hr.
    simpl. by rewrite (proj2 (Z.leb_le 400 (status_code r)) Hs).
  - intros m Hm. by rewrite (proxy_request_ready _ _ _ _ _ _ _ Hp), Hm.
Qed.

Lemma upstream_failures_masked_witness :
  (proxy_request None request_modules "modules"
                 (get_user_from_api_key token) "t2"
                 (gateway_with upstream_not_found ∅)).1
  = {| resp_status := 500; resp_body := Detail "Internal server error" |}.
Proof.
  refine (proj1 (proj2 (upstream_failures_masked None request_modules
                          "modules" (get_user_from_api_key token) "t2"
                          (gateway_with upstream_not_found ∅)
                          (mkProxy "http://localhost:8000" 30
                                   upstream_not_found) eq_refl))
            response_404 eq_refl _).
  simpl. lia.
Defined.

(** C3, counterexample.  The upstream answers 404; the caller, whose
    request passed every check, gets 500. *)
Lemma upstream_status_counterexample :
  upstream_not_found
    (outbound_call None request_modules "modules"
                   (get_user_from_api_key token) "t2")
  = Responded response_404
  ∧ status_code response_404 = 404
  ∧ (api_route [] None 10 request_modules "modules"
               (gateway_with upstream_not_found ∅)).1
    = {| resp_status := 500; resp_body := Detail "Internal server error" |}.
Proof.
  split; [reflexivity |]. split; [reflexivity |]. by vm_compute.
Qed.

(** ** Audit *)



(** The two records on an error path of the proxy route, with the default
    environment. *)
Lemma audit_on_rejection :
  (audit_middleware (setup_audit_logging None None)
     (fun request => api_route [] None 10 request "modules")
     request_anonymous (gateway_with upstream_ok ∅) []).2
  = [request_received "GET" "/api/modules" "10.0.0.1" (Some "curl/8.5");
     request_completed 401 "/api/modules"].
Proof. by vm_compute. Qed.

(** ** Header rewriting *)

Lemma update_insert (l : Dict.loc) (entries : list (string * string))
    (d : gmap string string) (σ : gmap Dict.loc (gmap string string)) :
  Dict.update l entries (<[l := d]> σ)
  = <[l := foldl (fun acc kv => <[kv.1 := kv.2]> acc) d entries]> σ.
Proof. unfold Dict.update. by rewrite alter_insert_eq. Qed.

Lemma pop_insert (l : Dict.loc) (k : string) (d : gmap string string)
    (σ : gmap Dict.loc (gmap string string)) :
  Dict.pop l k (<[l := d]> σ) = <[l := delete k d]> σ.
Proof. unfold Dict.pop. by rewrite alter_insert_eq. Qed.

Lemma setitem_insert (l : Dict.loc) (k v : string) (d : gmap string string)
    (σ : gmap Dict.loc (gmap string string)) :
  Dict.setitem l k v (<[l := d]> σ) = <[l := <[k := v]> d]> σ.
Proof. unfold Dict.setitem. by rewrite alter_insert_eq. Qed.

Lemma pops_insert (l : Dict.loc) (names : list string)
    (d : gmap string string) (σ : gmap Dict.loc (gmap string string)) :
  foldl (fun σ header => Dict.pop l header σ) (<[l := d]> σ) names
  = <[l := foldl (fun d header => delete header d) d names]> σ.
Proof.
  revert d. induction names as [| name names IH]; intros d; simpl; [done |].
  by rewrite pop_insert, IH.
Qed.

(** [_prepare_internal_headers] allocates one dictionary and touches no
    other. *)
Lemma prepare_internal_headers_eq (KEY : option string)
    (original_headers : Dict.loc) (tenant : string) (user : User)
    (σ : gmap Dict.loc (gmap string string)) :
  _prepare_internal_headers KEY original_headers tenant user σ
  = (fresh (dom σ),
     <[fresh (dom σ) :=
         prepared_contents KEY (σ !!! original_headers) tenant user]> σ).
Proof.
  unfold _prepare_internal_headers, Dict.copy, Dict.new. simpl.
  f_equal. rewrite update_insert, pop_insert.
  unfold Dict.get. rewrite lookup_insert_eq. simpl.
  unfold prepared_contents, injected.
  destruct KEY as [key |]; [| done].
  destruct (nonempty key); [| done].
  by rewrite setitem_insert.
Qed.

Lemma outbound_headers_eq (KEY : option string) (headers : Dict.loc)
    (tenant : string) (user : User)
    (σ : gmap Dict.loc (gmap string string)) :
  outbound_headers KEY headers tenant user σ
  = (fresh (dom σ),
     <[fresh (dom σ) :=
         outbound_contents KEY (σ !!! headers) tenant user]> σ).
Proof.
  unfold outbound_headers. rewrite prepare_internal_headers_eq.
  by rewrite pops_insert.
Qed.

Lemma rewrite_headers_eq (KEY : option string) (inbound : gmap string string)
    (tenant : string) (user : User) :
  rewrite_headers KEY inbound tenant user
  = outbound_contents KEY inbound tenant user.
Proof.
  unfold rewrite_headers, Dict.new. rewrite outbound_headers_eq.
  by rewrite !lookup_total_insert_eq.
Qed.

(** C8.  Header rewriting returns a dictionary that did not exist before
    and leaves the one it was given, like every other dictionary of the
    store, as it was; the same holds once [forward_request] has popped the
    hop-by-hop headers and made its call. *)
Theorem rewriting_leaves_inbound_untouched (KEY : option string)
    (original_headers : Dict.loc) (tenant : string) (user : User)
    (σ : gmap Dict.loc (gmap string string)) (inbound : gmap string string) :
  σ !! original_headers = Some inbound →
  (∀ headers σ',
     _prepare_internal_headers KEY original_headers tenant user σ
     = (headers, σ') →
     headers ≠ original_headers
     ∧ σ !! headers = None
     ∧ σ' !! original_headers = Some inbound
     ∧ ∀ l, l ≠ headers → σ' !! l = σ !! l)
  ∧ (∀ self method path body,
       fw_store (forward_request self KEY method path original_headers body
                                 tenant user σ) !! original_headers
       = Some inbound).
Proof.
  intros Hin.
  assert (fresh (dom σ) ≠ original_headers) as Hne.
  { intros Heq. pose proof (is_fresh (dom σ)) as Hfresh.
    rewrite Heq in Hfresh. apply not_elem_of_dom in Hfresh. congruence. }
  split.
  - intros headers σ' Hrun. rewrite prepare_internal_headers_eq in Hrun.
    injection Hrun as <- <-. repeat split.
    + done.
    + apply not_elem_of_dom, is_fresh.
    + by rewrite lookup_insert_ne.
    + intros l Hl. by rewrite lookup_insert_ne.
  - intros self method path body. unfold forward_request.
    rewrite outbound_headers_eq. simpl. by rewrite lookup_insert_ne.
Qed.

Lemma rewriting_leaves_inbound_untouched_witness :
  (_prepare_internal_headers None 1%positive "t1" org_admin_t1
     {[ 1%positive := mixed_case_headers ]}).1 ≠ 1%positive
  ∧ (_prepare_internal_headers None 1%positive "t1" org_admin_t1
       {[ 1%positive := mixed_case_headers ]}).2 !! 1%positive
    = Some mixed_case_headers.
Proof.
  destruct (_prepare_internal_headers None 1%positive "t1" org_admin_t1
              {[ 1%positive := mixed_case_headers ]})
    as [headers σ'] eqn:Hrun.
  destruct (proj1 (rewriting_leaves_inbound_untouched None 1%positive "t1"
                     org_admin_t1 {[ 1%positive := mixed_case_headers ]}
                     mixed_case_headers (lookup_singleton_eq _ _))
              headers σ' Hrun)
    as (Hne & _ & Hsame & _).
  by split.
Defined.

Lemma lookup_deletes (names : list string) (d : gmap string string)
    (k : string) :
  foldl (fun d header => delete header d) d names !! k
  = if decide (k ∈ names) then None else d !! k.
Proof.
  revert d. induction names as [| name names IH]; intros d; cbn [foldl].
  - case_decide as Hin; [by apply elem_of_nil in Hin | done].
  - rewrite IH. case_decide as Htail; case_decide as Hall; try done.
    + destruct Hall. by right.
    + apply elem_of_cons in Hall as [-> | Hin]; [| done].
      apply lookup_delete_eq.
    + apply lookup_delete_ne. intros ->. apply Hall. by left.
Qed.

Lemma lookup_inserts_other (entries : list (string * string))
    (d : gmap string string) (k : string) :
  k ∉ entries.*1 →
  foldl (fun acc kv => <[kv.1 := kv.2]> acc) d entries !! k = d !! k.
Proof.
  revert d. induction entries as [| [k' v'] entries IH]; intros d Hk; simpl.
  - done.
  - rewrite fmap_cons, not_elem_of_cons in Hk. destruct Hk as [Hne Hk].
    rewrite IH by done. simpl in Hne. by rewrite lookup_insert_ne.
Qed.

(** A name on the list of stripped names is absent from the outbound
    contents. *)
Lemma outbound_contents_stripped (KEY : option string)
    (inbound : gmap string string) (tenant : string) (user : User)
    (name : string) :
  name ∈ stripped_headers →
  outbound_contents KEY inbound tenant user !! name = None.
Proof.
  intros Hin. unfold outbound_contents. rewrite lookup_deletes.
  case_decide as Hhop; [done |].
  assert (name = "authorization") as ->.
  { unfold stripped_headers in Hin. apply elem_of_cons in Hin.
    by destruct Hin. }
  unfold prepared_contents.
  destruct KEY as [key |]; [destruct (nonempty key) |];
    rewrite ?lookup_insert_ne by done; apply lookup_delete_eq.
Qed.

(** A name that is neither stripped nor written by the gateway keeps the
    value it had in the inbound mapping. *)
Lemma outbound_contents_other (KEY : option string)
    (inbound : gmap string string) (tenant : string) (user : User)
    (k : string) :
  k ∉ stripped_headers → k ∉ gateway_headers →
  outbound_contents KEY inbound tenant user !! k = inbound !! k.
Proof.
  intros Hs Hg. unfold outbound_contents. rewrite lookup_deletes.
  unfold stripped_headers in Hs. apply not_elem_of_cons in Hs as [Hauth Hhop].
  case_decide; [done |].
  assert (k ≠ "X-Internal-API-Key") as Hkey.
  { intros ->. apply Hg. unfold gateway_headers.
    rewrite !elem_of_cons. tauto. }
  assert (k ∉ (injected inbound tenant user).*1) as Hinj.
  { intros Hin. apply Hg. unfold gateway_headers. simpl in Hin.
    rewrite !elem_of_cons in Hin. rewrite !elem_of_cons. tauto. }
  unfold prepared_contents.
  destruct KEY as [key |]; [destruct (nonempty key) |];
    rewrite ?lookup_insert_ne by done;
    rewrite lookup_delete_ne by done; by apply lookup_inserts_other.
Qed.

Lemma stripped_headers_lower (name : string) :
  name ∈ stripped_headers → lower name = name.
Proof.
  unfold stripped_headers, hop_by_hop_headers. rewrite !elem_of_cons.
  intros H. repeat destruct H as [-> | H]; try reflexivity.
  by apply elem_of_nil in H.
Qed.

Lemma gateway_headers_not_stripped (k : string) :
  k ∈ gateway_headers → lower k ∉ stripped_headers.
Proof.
  unfold gateway_headers. rewrite !elem_of_cons.
  intros H. repeat destruct H as [-> | H];
    try (by apply (bool_decide_unpack _); vm_compute).
  by apply elem_of_nil in H.
Qed.

(** C4, as the code has it.  When the names of the inbound mapping are in
    lower case, which is how the endpoint receives them, the mapping handed
    to the outbound client carries neither an Authorization header nor any
    of the eight hop-by-hop headers, in any letter case. *)
Theorem outbound_headers_stripped (KEY : option string)
    (inbound : gmap string string) (tenant : string) (user : User) :
  (∀ k, is_Some (inbound !! k) → lower k = k) →
  ∀ name, name ∈ stripped_headers →
    ¬ carries name (rewrite_headers KEY inbound tenant user).
Proof.
  intros Hlower name Hname (k & v & Hk & Hspell).
  rewrite rewrite_headers_eq in Hk.
  rewrite (stripped_headers_lower name Hname) in Hspell.
  destruct (decide (k ∈ gateway_headers)) as [Hg | Hg].
  { apply gateway_headers_not_stripped in Hg. by rewrite Hspell in Hg. }
  destruct (decide (k ∈ stripped_headers)) as [Hs | Hs].
  { rewrite outbound_contents_stripped in Hk by done. discriminate. }
  rewrite outbound_contents_other in Hk by done.
  rewrite Hlower in Hspell by (by exists v). by subst.
Qed.

Lemma outbound_headers_stripped_witness :
  ¬ carries "authorization"
      (rewrite_headers None (req_headers request_modules) "t2"
                       (get_user_from_api_key token)).
Proof.
  apply (outbound_headers_stripped None (req_headers request_modules) "t2"
           (get_user_from_api_key token)).
  - intros k [v Hk]. unfold request_modules in Hk. simpl in Hk.
    rewrite !lookup_insert_Some in Hk.
    destruct Hk as [[<- _] | [_ [[<- _] | [_ [[<- _] | [_ Hk]]]]]];
      try reflexivity.
    by rewrite lookup_empty in Hk.
  - unfold stripped_headers. left.
Defined.

(** C4, counterexample.  An inbound mapping whose Authorization and
    Connection headers are spelled with capitals: both are still carried by
    the mapping handed to the outbound client. *)
Lemma outbound_headers_counterexample :
  carries "authorization" mixed_case_headers
  ∧ carries "connection" mixed_case_headers
  ∧ carries "authorization"
      (rewrite_headers None mixed_case_headers "t1" org_admin_t1)
  ∧ carries "connection"
      (rewrite_headers None mixed_case_headers "t1" org_admin_t1).
Proof.
  repeat split.
  - exists "Authorization", "Bearer secret". by vm_compute.
  - exists "Connection", "close". by vm_compute.
  - exists "Authorization", "Bearer secret". by vm_compute.
  - exists "Connection", "close". by vm_compute.
Qed.

(** C10.  Removal goes by exact dictionary key.  Of the inbound entries
    whose name spells Authorization or a hop-by-hop header, those written in
    lower case are removed and those with a capital letter anywhere survive
    with their value; for instance [Authorization] and [Connection] survive
    while [te] is removed. *)
Theorem removal_is_case_sensitive :
  (∀ (KEY : option string) (inbound : gmap string string) (tenant : string)
     (user : User) (k v : string),
     inbound !! k = Some v →
     lower k ∈ stripped_headers →
     rewrite_headers KEY inbound tenant user !! k
     = if decide (k = lower k) then None else Some v)
  ∧ rewrite_headers None mixed_case_headers "t1" org_admin_t1
      !! "Authorization" = Some "Bearer secret"
  ∧ rewrite_headers None mixed_case_headers "t1" org_admin_t1
      !! "Connection" = Some "close"
  ∧ rewrite_headers None mixed_case_headers "t1" org_admin_t1 !! "te" = None.
Proof.
  split; [| by vm_compute].
  intros KEY inbound tenant user k v Hk Hspell.
  rewrite rewrite_headers_eq.
  destruct (decide (k = lower k)) as [Heq | Hne].
  - rewrite <- Heq in Hspell. by apply outbound_contents_stripped.
  - rewrite outbound_contents_other, Hk; [done | |].
    + intros Hs. apply Hne. symmetry. by apply stripped_headers_lower.
    + intros Hg. by apply gateway_headers_not_stripped in Hg.
Qed.

Lemma removal_is_case_sensitive_witness :
  rewrite_headers None mixed_case_headers "t1" org_admin_t1 !! "Connection"
  = (if decide ("Connection" = lower "Connection")
     then None else Some "close").
Proof.
  apply (proj1 removal_is_case_sensitive None mixed_case_headers "t1"
           org_admin_t1 "Connection" "close").
  - by vm_compute.
  - apply (bool_decide_unpack _). by vm_compute.
Defined.

(** * Further properties *)

(** ** The allow-list of admin e-mails *)

Lemma split_comma_cons (s : string) :
  ∃ piece pieces, split_comma s = piece :: pieces.
Proof.
  induction s as [| c rest IH]; simpl; [by eauto |].
  destruct (Ascii.eqb c ","); [by eauto |].
  destruct IH as (piece & pieces & ->). by eauto.
Qed.

Lemma split_comma_no_comma (s piece : string) :
  In piece (split_comma s) → char_in "," piece = false.
Proof.
  revert piece. induction s as [| c rest IH]; intros piece; simpl.
  - by intros [<- | []].
  - destruct (Ascii.eqb c ",") eqn:Hc.
    + intros [<- | Hin]; [done | by apply IH].
    + destruct (split_comma_cons rest) as (p & ps & Hsplit).
      rewrite Hsplit in IH |- *. intros [<- | Hin].
      * simpl. rewrite Hc. apply IH. by left.
      * apply IH. by right.
Qed.

Lemma lstrip_char_in (c : ascii) (s : string) :
  char_in c (lstrip s) = true → char_in c s = true.
Proof.
  induction s as [| a rest IH]; simpl; [done |].
  destruct (is_space a); [| done].
  intros H. rewrite (IH H). apply orb_true_r.
Qed.

Lemma rstrip_char_in (c : ascii) (s : string) :
  char_in c (rstrip s) = true → char_in c s = true.
Proof.
  induction s as [| a rest IH]; simpl; [done |].
  destruct (rstrip rest) as [| b kept].
  - destruct (is_space a); simpl; [done |].
    rewrite orb_false_r. by intros ->.
  - simpl in *. destruct (Ascii.eqb a c); [done |]. simpl. apply IH.
Qed.

Lemma strip_no_comma (s : string) :
  char_in "," s = false → char_in "," (strip s) = false.
Proof.
  intros Hs. destruct (char_in "," (strip s)) eqn:E; [| done].
  apply lstrip_char_in, rstrip_char_in in E. congruence.
Qed.

Lemma lstrip_idemp (s : string) : lstrip (lstrip s) = lstrip s.
Proof.
  induction s as [| a rest IH]; simpl; [done |].
  destruct (is_space a) eqn:Ha; [done |]. simpl. by rewrite Ha.
Qed.

Lemma rstrip_idemp (s : string) : rstrip (rstrip s) = rstrip s.
Proof.
  induction s as [| a rest IH]; simpl; [done |].
  destruct (rstrip rest) as [| b kept] eqn:Hrest.
  - destruct (is_space a) eqn:Ha; simpl; [done | by rewrite Ha].
  - change (rstrip (String a (String b kept)))
      with (match rstrip (String b kept) with
            | EmptyString =>
                if is_space a then EmptyString else String a EmptyString
            | kept' => String a kept'
            end).
    by rewrite IH.
Qed.

Lemma rstrip_lstrip (s : string) :
  rstrip s = s → rstrip (lstrip s) = lstrip s.
Proof.
  induction s as [| a rest IH]; simpl; [done |].
  destruct (is_space a) eqn:Ha.
  - destruct (rstrip rest) as [| b kept] eqn:Hrest; [done |].
    intros [= Heq]. apply IH. congruence.
  - intros Hfix. simpl. destruct (rstrip rest); by rewrite ?Ha.
Qed.

Lemma strip_idemp (s : string) : strip (strip s) = strip s.
Proof.
  unfold strip.
  rewrite (rstrip_lstrip (rstrip s)) by apply rstrip_idemp.
  apply lstrip_idemp.
Qed.

(** What every entry of the parsed list looks like. *)
Lemma allowed_admins_entry (env : option string) (admin : string) :
  In admin (AuthConfig.ALLOWED_ADMINS env) →
  admin ≠ EmptyString ∧ strip admin = admin ∧ char_in "," admin = false.
Proof.
  unfold AuthConfig.ALLOWED_ADMINS. rewrite in_map_iff.
  intros (piece & <- & Hin).
  apply list_elem_of_In, list_elem_of_filter in Hin as [Hkeep Hin].
  apply list_elem_of_In in Hin. repeat split.
  - intros Heq. by rewrite Heq in Hkeep.
  - apply strip_idemp.
  - apply strip_no_comma. by apply (split_comma_no_comma _ _ Hin).
Qed.

(** X1.  Every entry of the parsed allow-list is non-empty, has no
    whitespace at either end and contains no comma, whatever the value of
    the environment variable. *)
Theorem allowed_admins_clean (env : option string) (admin : string) :
  In admin (AuthConfig.ALLOWED_ADMINS env) →
  admin ≠ EmptyString
  ∧ lstrip admin = admin ∧ rstrip admin = admin
  ∧ char_in "," admin = false.
Proof.
  intros Hin. destruct (allowed_admins_entry env admin Hin)
    as (Hne & Hstrip & Hcomma).
  repeat split; try done.
  - rewrite <- Hstrip. apply lstrip_idemp.
  - rewrite <- Hstrip. unfold strip.
    apply rstrip_lstrip, rstrip_idemp.
Qed.

Lemma allowed_admins_clean_witness :
  "ops@example.com" ≠ EmptyString
  ∧ lstrip "ops@example.com" = "ops@example.com"
  ∧ rstrip "ops@example.com" = "ops@example.com"
  ∧ char_in "," "ops@example.com" = false.
Proof.
  apply (allowed_admins_clean
           (Some " root@example.com ,, ops@example.com ,")
           "ops@example.com").
  vm_compute. right. by left.
Defined.

Lemma rstrip_all_space (s : string) :
  all_chars is_space s = true → rstrip s = EmptyString.
Proof.
  induction s as [| a rest IH]; simpl; [done |].
  intros [Ha Hrest]%andb_true_iff. by rewrite (IH Hrest), Ha.
Qed.

Lemma strip_not_all_space (s : string) :
  all_chars is_space s = false → strip s ≠ EmptyString.
Proof.
  unfold strip. induction s as [| a rest IH]; simpl; [done |].
  destruct (is_space a) eqn:Ha; simpl.
  - intros Hrest. specialize (IH Hrest).
    destruct (rstrip rest) as [| b kept]; [done |].
    simpl. by rewrite Ha.
  - intros _. destruct (rstrip rest); simpl; by rewrite Ha.
Qed.

Lemma strip_empty_iff (s : string) :
  nonempty (strip s) = false ↔ all_chars is_space s = true.
Proof.
  split.
  - intros Hs. destruct (all_chars is_space s) eqn:E; [done |].
    apply strip_not_all_space in E. by destruct (strip s).
  - intros Hs. unfold strip. by rewrite rstrip_all_space.
Qed.

Lemma split_comma_all_space (s : string) :
  Forall (fun piece => all_chars is_space piece = true) (split_comma s)
  ↔ all_chars (fun c => (Ascii.eqb c "," || is_space c)%bool) s = true.
Proof.
  induction s as [| c rest IH]; simpl.
  - split; [done | by repeat constructor].
  - destruct (Ascii.eqb c ",") eqn:Hc; simpl.
    + rewrite Forall_cons. simpl. rewrite IH. tauto.
    + destruct (split_comma_cons rest) as (p & ps & Hsplit).
      rewrite Hsplit in IH |- *.
      rewrite andb_true_iff, <- IH, !Forall_cons. simpl.
      rewrite andb_true_iff. tauto.
Qed.


Lemma split_comma_whole (a : string) :
  char_in "," a = false → split_comma a = [a].
Proof.
  induction a as [| c rest IH]; simpl; [done |].
  intros [Hc Hrest]%orb_false_iff. by rewrite Hc, (IH Hrest).
Qed.

Lemma split_comma_app (a s : string) :
  char_in "," a = false →
  split_comma (a ++ "," ++ s) = a :: split_comma s.
Proof.
  induction a as [| c rest IH]; simpl; [done |].
  intros [Hc Hrest]%orb_false_iff. by rewrite Hc, (IH Hrest).
Qed.

Lemma split_comma_join (a : string) (l : list string) :
  Forall (fun a => char_in "," a = false) (a :: l) →
  split_comma (join "," (a :: l)) = a :: l.
Proof.
  revert a. induction l as [| b l IH]; intros a Hall.
  - simpl. apply split_comma_whole. by apply Forall_inv in Hall.
  - apply Forall_cons in Hall as [Ha Hl].
    change (join "," (a :: b :: l)) with (a ++ "," ++ join "," (b :: l)).
    by rewrite split_comma_app, IH.
Qed.



(** X4.  Under an allow-list read from the environment, an identity that
    has an admin role but no e-mail address is admitted when the list is
    empty and refused with 403 otherwise: the empty address is never an
    entry of the list. *)
Theorem allow_list_refuses_missing_email (env : option string)
    (user : User) :
  (∃ role, In role (roles_of user) ∧ In role admin_roles) →
  u_email user = None →
  check_admin (AuthConfig.ALLOWED_ADMINS env) user
  = match AuthConfig.ALLOWED_ADMINS env with
    | [] => Ok user
    | _ :: _ =>
        Raise (mkHTTPException 403 "Admin not authorized for MCP access")
    end.
Proof.
  intros Hrole Hmail. apply has_admin_role_spec in Hrole.
  pose proof (allowed_admins_entry env EmptyString) as Hentry.
  unfold check_admin, email_of. rewrite Hrole, Hmail. simpl.
  destruct (AuthConfig.ALLOWED_ADMINS env) as [| a l]; [done |].
  destruct (str_in EmptyString (a :: l)) eqn:Hin; [| done].
  apply str_in_In, Hentry in Hin. by destruct Hin.
Qed.

Lemma allow_list_refuses_missing_email_witness :
  check_admin (AuthConfig.ALLOWED_ADMINS (Some "root@example.com"))
              (mkUser (Some "u-3") None (Some ["org_admin"]) (Some "t1") None)
  = Raise (mkHTTPException 403 "Admin not authorized for MCP access").
Proof.
  apply (allow_list_refuses_missing_email (Some "root@example.com")
           (mkUser (Some "u-3") None (Some ["org_admin"]) (Some "t1") None)).
  - exists "org_admin". simpl. auto.
  - reflexivity.
Defined.


(** ** The admin and tenant checks *)

(** X5.  The admin check grants access exactly to an identity that has one
    of the two admin roles and, when the allow-list is not empty, whose
    e-mail address is on it; it then returns the identity unchanged, and
    every refusal is a 403. *)
Theorem check_admin_granted_iff (ALLOWED_ADMINS : list string)
    (user : User) :
  (∀ granted, check_admin ALLOWED_ADMINS user = Ok granted
     ↔ granted = user
       ∧ (∃ role, In role (roles_of user) ∧ In role admin_roles)
       ∧ (ALLOWED_ADMINS = [] ∨ In (email_of user) ALLOWED_ADMINS))
  ∧ (∀ e, check_admin ALLOWED_ADMINS user = Raise e →
          exc_status_code e = 403).
Proof.
  split.
  - intros granted. split.
    + unfold check_admin.
      destruct (existsb _ (roles_of user)) eqn:Hrole; simpl; [| done].
      apply has_admin_role_spec in Hrole.
      destruct ALLOWED_ADMINS as [| a l]; [intros [= <-]; auto |].
      destruct (str_in (email_of user) (a :: l)) eqn:Hin; simpl; [| done].
      apply str_in_In in Hin. intros [= <-]. auto.
    + intros (-> & Hrole & Hallow). by apply check_admin_granted.
  - intros e. unfold check_admin.
    destruct (existsb _ (roles_of user)); simpl; [| by intros [= <-]].
    destruct ALLOWED_ADMINS as [| a l]; [done |].
    destruct (str_in (email_of user) (a :: l)); simpl; [done |].
    by intros [= <-].
Qed.

Lemma check_admin_granted_iff_witness :
  check_admin ["lead@example.com"] org_admin_t1 = Ok org_admin_t1.
Proof.
  apply (proj1 (check_admin_granted_iff ["lead@example.com"] org_admin_t1)
           org_admin_t1).
  split; [reflexivity |]. split.
  - exists "org_admin". simpl. auto.
  - right. simpl. auto.
Defined.

Lemma verify_tenant_access_ok (tenant : string) (user : User)
    (granted : string) :
  verify_tenant_access tenant user = Ok granted →
  granted = tenant
  ∧ (In "system_admin" (roles_of user) ∨ u_tenant_id user = Some tenant).
Proof.
  unfold verify_tenant_access.
  destruct (str_in "system_admin" (roles_of user)) eqn:Hsys.
  - intros [= <-]. apply str_in_In in Hsys. auto.
  - case_bool_decide as Hten; simpl; [| done]. intros [= <-]. auto.
Qed.

(** X6.  Tenant isolation in [verify_tenant_access]: an identity without
    the [system_admin] role is admitted to its own tenant and to no other,
    so two tenants it is admitted to are the same one, and an identity that
    has no tenant at all is admitted nowhere; what is returned on success
    is the tenant asked for. *)
Theorem verify_tenant_access_isolation (user : User) :
  ¬ In "system_admin" (roles_of user) →
  (∀ tenant granted,
     verify_tenant_access tenant user = Ok granted →
     granted = tenant ∧ u_tenant_id user = Some tenant)
  ∧ (∀ t1 t2 g1 g2,
       verify_tenant_access t1 user = Ok g1 →
       verify_tenant_access t2 user = Ok g2 → t1 = t2)
  ∧ (∀ tenant,
       u_tenant_id user ≠ Some tenant →
       verify_tenant_access tenant user
       = Raise (mkHTTPException 403 "Cross-tenant access denied")).
Proof.
  intros Hsys. split; [| split].
  - intros tenant granted Hok.
    apply verify_tenant_access_ok in Hok as [-> [? | ?]]; by split.
  - intros t1 t2 g1 g2 H1 H2.
    apply verify_tenant_access_ok in H1 as [_ [? | H1]]; [done |].
    apply verify_tenant_access_ok in H2 as [_ [? | H2]]; [done |].
    congruence.
  - intros tenant Hother. unfold verify_tenant_access.
    apply str_in_not_In in Hsys. rewrite Hsys.
    by rewrite bool_decide_eq_false_2.
Qed.

Lemma verify_tenant_access_isolation_witness :
  verify_tenant_access "t2" org_admin_t1
  = Raise (mkHTTPException 403 "Cross-tenant access denied").
Proof.
  refine (proj2 (proj2 (verify_tenant_access_isolation org_admin_t1 _))
            "t2" _).
  - simpl. intros [H | []]. discriminate H.
  - discriminate.
Defined.

(** ** More on header rewriting *)

Lemma lookup_inserts_in (entries : list (string * string))
    (d : gmap string string) (k v : string) :
  NoDup entries.*1 → (k, v) ∈ entries →
  foldl (fun acc kv => <[kv.1 := kv.2]> acc) d entries !! k = Some v.
Proof.
  revert d. induction entries as [| [k' v'] entries IH]; intros d Hnd Hin.
  - by apply elem_of_nil in Hin.
  - rewrite fmap_cons in Hnd. apply NoDup_cons in Hnd as [Hfresh Hnd].
    apply elem_of_cons in Hin as [[= -> ->] | Hin]; simpl.
    + rewrite lookup_inserts_other by done. apply lookup_insert_eq.
    + by apply IH.
Qed.

Lemma injected_names (inbound : gmap string string) (tenant : string)
    (user : User) :
  (injected inbound tenant user).*1
  = ["X-Forwarded-For"; "X-Forwarded-Proto"; "X-Gateway-User-ID";
     "X-Gateway-User-Email"; "X-Gateway-User-Roles"; "X-Gateway-Tenant-ID";
     "X-Gateway-Source"].
Proof. reflexivity. Qed.

(** An entry written by [update] is in the outbound contents with the
    value written. *)
Lemma outbound_contents_injected (KEY : option string)
    (inbound : gmap string string) (tenant : string) (user : User)
    (k v : string) :
  (k, v) ∈ injected inbound tenant user →
  outbound_contents KEY inbound tenant user !! k = Some v.
Proof.
  intros Hin.
  assert (k ∈ (injected inbound tenant user).*1) as Hname.
  { apply list_elem_of_fmap. by exists (k, v). }
  rewrite injected_names in Hname.
  assert ((k ∉ hop_by_hop_headers) ∧ k ≠ "authorization"
          ∧ k ≠ "X-Internal-API-Key") as (Hhop & Hauth & Hkey).
  { rewrite !elem_of_cons in Hname.
    repeat destruct Hname as [-> | Hname];
      try (split; [by apply (bool_decide_unpack _); vm_compute | done]).
    by apply elem_of_nil in Hname. }
  unfold outbound_contents. rewrite lookup_deletes.
  case_decide; [done |]. unfold prepared_contents.
  assert (NoDup (injected inbound tenant user).*1) as Hnd.
  { rewrite injected_names. apply (bool_decide_unpack _). by vm_compute. }
  destruct KEY as [key |]; [destruct (nonempty key) |];
    rewrite ?lookup_insert_ne by done;
    rewrite lookup_delete_ne by done; by apply lookup_inserts_in.
Qed.

Lemma outbound_contents_internal_key (KEY : option string)
    (inbound : gmap string string) (tenant : string) (user : User) :
  outbound_contents KEY inbound tenant user !! "X-Internal-API-Key"
  = match KEY with
    | Some key =>
        if nonempty key then Some key else inbound !! "X-Internal-API-Key"
    | None => inbound !! "X-Internal-API-Key"
    end.
Proof.
  unfold outbound_contents. rewrite lookup_deletes.
  case_decide as Hhop.
  { exfalso. revert Hhop. apply (bool_decide_unpack _). by vm_compute. }
  unfold prepared_contents.
  assert (∀ d : gmap string string,
            delete "authorization"
              (foldl (fun acc kv => <[kv.1 := kv.2]> acc) inbound
                     (injected inbound tenant user))
            !! "X-Internal-API-Key" = inbound !! "X-Internal-API-Key")
    as Hrest.
  { intros _. rewrite lookup_delete_ne by done.
    apply lookup_inserts_other. rewrite injected_names.
    apply (bool_decide_unpack _). by vm_compute. }
  destruct KEY as [key |]; [destruct (nonempty key) |].
  - apply lookup_insert_eq.
  - by apply Hrest.
  - by apply Hrest.
Qed.

Lemma gateway_headers_capital (k : string) :
  k ∈ gateway_headers → lower k ≠ k.
Proof.
  unfold gateway_headers. rewrite !elem_of_cons.
  intros H. repeat destruct H as [-> | H]; try discriminate.
  by apply elem_of_nil in H.
Qed.

(** X7.  Every inbound header with a lower-case name other than
    Authorization and the hop-by-hop headers is handed to the upstream with
    its value unchanged.  This holds in particular for a caller-supplied
    [x-gateway-user-roles], which travels next to the [X-Gateway-User-Roles]
    that the gateway writes. *)
Theorem other_headers_pass_through (KEY : option string)
    (inbound : gmap string string) (tenant : string) (user : User) :
  (∀ k v, inbound !! k = Some v → lower k = k → k ∉ stripped_headers →
          rewrite_headers KEY inbound tenant user !! k = Some v)
  ∧ (∀ v, inbound !! "x-gateway-user-roles" = Some v →
          rewrite_headers KEY inbound tenant user !! "x-gateway-user-roles"
          = Some v
          ∧ rewrite_headers KEY inbound tenant user !! "X-Gateway-User-Roles"
            = Some (join "," (roles_of user))).
Proof.
  assert (∀ k v, inbound !! k = Some v → lower k = k → k ∉ stripped_headers →
                 rewrite_headers KEY inbound tenant user !! k = Some v)
    as Hpass.
  { intros k v Hk Hlow Hs. rewrite rewrite_headers_eq.
    rewrite outbound_contents_other; [done | done |].
    intros Hg. by apply gateway_headers_capital in Hg. }
  split; [exact Hpass |]. intros v Hv. split.
  - apply Hpass; [done | reflexivity |].
    apply (bool_decide_unpack _). by vm_compute.
  - rewrite rewrite_headers_eq. apply outbound_contents_injected.
    unfold injected, roles_of. rewrite !elem_of_cons. tauto.
Qed.

Lemma other_headers_pass_through_witness :
  rewrite_headers None
    (<["x-gateway-user-roles" := "system_admin"]>
       (req_headers request_modules)) "t2" org_admin_t1
    !! "x-gateway-user-roles" = Some "system_admin".
Proof.
  apply (proj1 (other_headers_pass_through None
                  (<["x-gateway-user-roles" := "system_admin"]>
                     (req_headers request_modules)) "t2" org_admin_t1)).
  - apply lookup_insert_eq.
  - reflexivity.
  - apply (bool_decide_unpack _). by vm_compute.
Defined.

(** X8.  Whatever the inbound mapping holds, the outbound one carries the
    gateway's own headers with the values of the identity and the tenant:
    user id, e-mail and comma-joined roles (or [unknown] where the identity
    lacks the key), the tenant, the source marker, [https] as forwarded
    protocol, the inbound [x-forwarded-for] or [unknown], and the internal
    API key when one is configured and not empty. *)
Theorem gateway_headers_written (KEY : option string)
    (inbound : gmap string string) (tenant : string) (user : User) :
  let out := rewrite_headers KEY inbound tenant user in
  out !! "X-Gateway-User-ID" = Some (default "unknown" (u_id user))
  ∧ out !! "X-Gateway-User-Email" = Some (default "unknown" (u_email user))
  ∧ out !! "X-Gateway-User-Roles" = Some (join "," (roles_of user))
  ∧ out !! "X-Gateway-Tenant-ID" = Some tenant
  ∧ out !! "X-Gateway-Source" = Some "mcp-gateway"
  ∧ out !! "X-Forwarded-Proto" = Some "https"
  ∧ out !! "X-Forwarded-For"
    = Some (default "unknown" (inbound !! "x-forwarded-for"))
  ∧ out !! "X-Internal-API-Key"
    = match KEY with
      | Some key =>
          if nonempty key then Some key
          else inbound !! "X-Internal-API-Key"
      | None => inbound !! "X-Internal-API-Key"
      end.
Proof.
  simpl. rewrite rewrite_headers_eq.
  repeat split;
    try (apply outbound_contents_injected; unfold injected, roles_of;
         rewrite !elem_of_cons; tauto).
  apply outbound_contents_internal_key.
Qed.

(** X9.  The outbound headers do not depend on the inbound Authorization
    header or on any inbound hop-by-hop header: two inbound mappings that
    agree on all other names are rewritten to the same mapping, so the
    caller's credential cannot reach the upstream through any header the
    gateway writes. *)
Theorem credential_does_not_flow (KEY : option string)
    (inbound1 inbound2 : gmap string string) (tenant : string)
    (user : User) :
  (∀ k, k ∉ stripped_headers → inbound1 !! k = inbound2 !! k) →
  rewrite_headers KEY inbound1 tenant user
  = rewrite_headers KEY inbound2 tenant user.
Proof.
  intros Hagree. rewrite !rewrite_headers_eq. apply map_eq. intros k.
  destruct (decide (k ∈ stripped_headers)) as [Hs | Hs].
  { by rewrite !outbound_contents_stripped. }
  destruct (decide (k ∈ gateway_headers)) as [Hg | Hg].
  - assert (inbound1 !! "x-forwarded-for" = inbound2 !! "x-forwarded-for")
      as Hxff.
    { apply Hagree. apply (bool_decide_unpack _). by vm_compute. }
    assert (inbound1 !! "X-Internal-API-Key"
            = inbound2 !! "X-Internal-API-Key") as Hkey.
    { apply Hagree. apply (bool_decide_unpack _). by vm_compute. }
    unfold gateway_headers in Hg. rewrite !elem_of_cons in Hg.
    destruct Hg as [-> | [-> | [-> | [-> | [-> | [-> | [-> | [-> | Hg]]]]]]]];
      try (by apply elem_of_nil in Hg);
      try (by rewrite !outbound_contents_internal_key, Hkey);
      erewrite !outbound_contents_injected; try reflexivity;
      unfold injected; rewrite ?Hxff, !elem_of_cons; tauto.
  - by rewrite !outbound_contents_other, Hagree.
Qed.

Lemma credential_does_not_flow_witness :
  rewrite_headers None (req_headers request_modules) "t2" org_admin_t1
  = rewrite_headers None (req_headers request_anonymous) "t2" org_admin_t1.
Proof.
  apply (credential_does_not_flow None (req_headers request_modules)
           (req_headers request_anonymous) "t2" org_admin_t1).
  intros k Hk. unfold request_modules, request_anonymous. simpl.
  apply lookup_insert_ne. intros <-. apply Hk. left.
Defined.

(** ** Forwarding *)

Lemma lstrip_slash_head (s rest : string) :
  lstrip_slash s ≠ String "/" rest.
Proof.
  induction s as [| c s IH]; simpl; [done |].
  destruct (Ascii.eqb c "/") eqn:Hc; [done |].
  intros [= -> _]. discriminate Hc.
Qed.

Lemma forward_request_url (self : JaiAPIProxy) (KEY : option string)
    (method path : string) (headers : Dict.loc) (body : option string)
    (tenant : string) (user : User)
    (σ : gmap Dict.loc (gmap string string)) :
  out_url (fw_sent (forward_request self KEY method path headers body
                                    tenant user σ))
  = String "/" (lstrip_slash path).
Proof.
  unfold forward_request.
  by destruct (outbound_headers KEY headers tenant user σ).
Qed.

(** X10.  The URL of the outbound call begins with exactly one slash,
    however many slashes the path begins with: the character after the
    first is never a slash, and a path with one more leading slash gives
    the same URL. *)
Theorem outbound_url_single_slash (self : JaiAPIProxy)
    (KEY : option string) (method path : string) (headers : Dict.loc)
    (body : option string) (tenant : string) (user : User)
    (σ : gmap Dict.loc (gmap string string)) :
  (∃ rest,
     out_url (fw_sent (forward_request self KEY method path headers body
                                       tenant user σ))
     = String "/" rest
     ∧ ∀ more, rest ≠ String "/" more)
  ∧ out_url (fw_sent (forward_request self KEY method (String "/" path)
                                      headers body tenant user σ))
    = out_url (fw_sent (forward_request self KEY method path headers body
                                        tenant user σ)).
Proof.
  rewrite !forward_request_url. split; [| reflexivity].
  exists (lstrip_slash path). split; [reflexivity |].
  intros more. apply lstrip_slash_head.
Qed.

(** X11.  The endpoint is a single-attempt forwarder.  Before startup,
    when the proxy is unset, it answers 503 and calls nothing; once the
    proxy is set it makes exactly one outbound call, whether that call
    succeeds, is answered with an error status or fails at the network
    level, and it leaves the limiter alone.  The call has the method of the
    request and carries the request body exactly for POST and PUT. *)
Theorem proxy_request_single_attempt (KEY : option string)
    (request : Request) (path : string) (admin_user : User)
    (tenant : string) (g : Gateway) :
  (proxy g = None →
   proxy_request KEY request path admin_user tenant g
   = ({| resp_status := 503; resp_body := Detail "Gateway not ready" |}, g))
  ∧ (∀ p, proxy g = Some p →
       ∃ call,
         upstream_calls (proxy_request KEY request path admin_user tenant g).2
         = (upstream_calls g ++ [call])%list
         ∧ limiter_storage
             (proxy_request KEY request path admin_user tenant g).2
           = limiter_storage g
         ∧ out_method call = req_method request
         ∧ (out_content call = Some (req_body request)
            ↔ req_method request = "POST" ∨ req_method request = "PUT")
         ∧ (out_content call = None
            ↔ ¬ (req_method request = "POST" ∨ req_method request = "PUT"))).
Proof.
  split.
  - intros Hp. unfold proxy_request. by rewrite Hp.
  - intros p Hp. exists (outbound_call KEY request path admin_user tenant).
    rewrite (proxy_request_ready _ _ _ _ _ _ _ Hp). unfold outbound_call.
    destruct (str_in (req_method request) ["POST"; "PUT"]) eqn:Hm.
    + apply str_in_In in Hm. simpl in Hm. simpl.
      repeat split; try done; intuition (auto; congruence).
    + apply str_in_not_In in Hm. simpl in Hm. simpl.
      repeat split; try done; intuition (auto; congruence).
Qed.

Lemma proxy_request_single_attempt_witness :
  ∃ call,
    upstream_calls
      (proxy_request None request_modules "modules" org_admin_t1 "t2"
                     (gateway_with upstream_not_found ∅)).2
    = [call]
    ∧ out_method call = "GET" ∧ out_content call = None.
Proof.
  destruct (proj2 (proxy_request_single_attempt None request_modules
                     "modules" org_admin_t1 "t2"
                     (gateway_with upstream_not_found ∅))
              (mkProxy "http://localhost:8000" 30 upstream_not_found)
              eq_refl)
    as (call & Hcalls & _ & Hmethod & _ & Hnone).
  exists call. split; [exact Hcalls |]. split; [exact Hmethod |].
  apply Hnone. simpl. intros [H | H]; discriminate H.
Defined.

(** ** The route, continued *)

(** X12.  A request whose credential is accepted but whose tenant header
    is missing or empty is answered with 400; the state is unchanged, so
    nothing is forwarded and the request is not counted by the limiter. *)
Theorem missing_tenant_rejected (ALLOWED_ADMINS : list string)
    (KEY : option string) (now : nat) (request : Request) (path : string)
    (g : Gateway) (admin_user : User) :
  admin_user_dependency ALLOWED_ADMINS request = Ok admin_user →
  headers_get "X-Tenant-ID" request = None
  ∨ headers_get "X-Tenant-ID" request = Some EmptyString →
  api_route ALLOWED_ADMINS KEY now request path g
  = ({| resp_status := 400;
        resp_body := Detail "Tenant ID required in X-Tenant-ID header" |},
     g).
Proof.
  intros Huser Htenant. unfold api_route, get_tenant_from_request.
  rewrite Huser. by destruct Htenant as [-> | ->].
Qed.

Lemma missing_tenant_rejected_witness :
  api_route [] None 10
    (mkRequest "GET" "/api/modules" (Some "10.0.0.1")
               {[ "authorization" := "Bearer " ++ token ]} EmptyString)
    "modules" (gateway_with upstream_ok storage_exhausted)
  = ({| resp_status := 400;
        resp_body := Detail "Tenant ID required in X-Tenant-ID header" |},
     gateway_with upstream_ok storage_exhausted).
Proof.
  apply (missing_tenant_rejected [] None 10
           (mkRequest "GET" "/api/modules" (Some "10.0.0.1")
                      {[ "authorization" := "Bearer " ++ token ]}
                      EmptyString)
           "modules" (gateway_with upstream_ok storage_exhausted)
           (get_user_from_api_key token)).
  - by vm_compute.
  - left. by vm_compute.
Defined.



(** ** Audit records *)

Import AuditFormat.

Lemma lookup_foldl_attributes (entries : list (string * Value))
    (d : gmap string Value) (k : string) :
  NoDup entries.*1 →
  foldl (fun acc kv =>
           if bool_decide (kv.1 ∈ standard_attributes) then acc
           else <[kv.1 := kv.2]> acc) d entries !! k
  = match (if bool_decide (k ∈ standard_attributes) then None
           else (list_to_map entries : gmap string Value) !! k) with
    | Some v => Some v
    | None => d !! k
    end.
Proof.
  revert d. induction entries as [| [k' v'] entries IH]; intros d Hnd.
  - simpl. rewrite lookup_empty. by case_bool_decide.
  - rewrite fmap_cons in Hnd. apply NoDup_cons in Hnd as [Hfresh Hnd].
    cbn [foldl]. rewrite (IH _ Hnd). cbn [fst snd list_to_map foldr].
    case_bool_decide as Hk; simpl.
    + case_bool_decide as Hk'; [done |].
      rewrite lookup_insert_ne; [done |]. by intros ->.
    + destruct (decide (k = k')) as [-> | Hne].
      * rewrite lookup_insert_eq.
        rewrite (not_elem_of_list_to_map_1 _ _ Hfresh).
        rewrite bool_decide_eq_false_2 by done. apply lookup_insert_eq.
      * rewrite (lookup_insert_ne _ k' k) by done.
        destruct (list_to_map entries !! k); [done |].
        case_bool_decide; [done |]. by rewrite lookup_insert_ne.
Qed.

(** Field by field, the entry that is serialised. *)
Lemma log_entry_lookup (timestamp : string) (record : LogRecord)
    (k : string) :
  log_entry timestamp record !! k
  = match (if bool_decide (k ∈ standard_attributes) then None
           else rec_dict record !! k) with
    | Some v => Some v
    | None =>
        let base : gmap string Value :=
          <["logger" := VStr (rec_name record)]>
            (<["level" := VStr (rec_levelname record)]>
               (<["timestamp" := VStr timestamp]> ∅)) in
        match rec_msg record with
        | DictMessage fields =>
            match fields !! k with
            | Some v => Some v
            | None => base !! k
            end
        | TextMessage text =>
            if bool_decide (k = "message") then Some (VStr text)
            else base !! k
        end
    end.
Proof.
  unfold log_entry.
  rewrite lookup_foldl_attributes by apply NoDup_fst_map_to_list.
  rewrite list_to_map_to_list.
  destruct (if bool_decide (k ∈ standard_attributes) then None
            else rec_dict record !! k); [done |].
  destruct (rec_msg record) as [fields | text]; simpl.
  - rewrite lookup_union. by destruct (fields !! k), (_ !! k).
  - case_bool_decide as Hk; [subst; apply lookup_insert_eq |].
    by rewrite lookup_insert_ne.
Qed.

(** X14.  Which value a field of a formatted audit entry takes.  An
    attribute of the record that is not one of the standard ones appears
    with its value, overriding everything else; below that, the field of a
    dictionary message wins, also over the formatter's own [timestamp],
    [level] and [logger]; those three are present in every entry; and no
    standard attribute of the record is copied. *)
Theorem log_entry_precedence (timestamp : string) (record : LogRecord) :
  (∀ k v, k ∉ standard_attributes → rec_dict record !! k = Some v →
          log_entry timestamp record !! k = Some v)
  ∧ (∀ fields k v,
       rec_msg record = DictMessage fields →
       k ∈ standard_attributes ∨ rec_dict record !! k = None →
       fields !! k = Some v →
       log_entry timestamp record !! k = Some v)
  ∧ (is_Some (log_entry timestamp record !! "timestamp")
     ∧ is_Some (log_entry timestamp record !! "level")
     ∧ is_Some (log_entry timestamp record !! "logger"))
  ∧ (∀ k, k ∈ standard_attributes →
          log_entry timestamp record !! k
          = match rec_msg record with
            | DictMessage fields => fields !! k
            | TextMessage text =>
                if bool_decide (k = "message") then Some (VStr text)
                else None
            end).
Proof.
  split; [| split; [| split]].
  - intros k v Hk Hv. rewrite log_entry_lookup.
    by rewrite bool_decide_eq_false_2, Hv.
  - intros fields k v Hmsg Hattr Hv. rewrite log_entry_lookup, Hmsg.
    case_bool_decide as Hk; simpl; [by rewrite Hv |].
    destruct Hattr as [? | ->]; [done |]. by rewrite Hv.
  - repeat split; rewrite log_entry_lookup;
      (destruct (if bool_decide (_ ∈ standard_attributes) then None
                 else rec_dict record !! _); [by eauto |]);
      (destruct (rec_msg record) as [fields | text]; simpl;
       [destruct (fields !! _); by eauto | by eauto]).
  - intros k Hk. rewrite log_entry_lookup.
    rewrite bool_decide_eq_true_2 by done.
    assert (k ≠ "logger" ∧ k ≠ "level" ∧ k ≠ "timestamp") as (? & ? & ?).
    { repeat split; intros ->; revert Hk;
        apply (bool_decide_unpack _); by vm_compute. }
    destruct (rec_msg record) as [fields | text]; simpl.
    + destruct (fields !! k); [done |].
      by rewrite !lookup_insert_ne, lookup_empty.
    + case_bool_decide; [done |].
      by rewrite !lookup_insert_ne, lookup_empty.
Qed.

Lemma log_entry_precedence_witness :
  log_entry "2026-01-01T00:00:02"
    (mkLogRecord "jai-mcp.gateway.audit" "INFO"
       (DictMessage {[ "timestamp" := VStr "2026-01-01T00:00:01" ]})
       {[ "name" := VStr "jai-mcp.gateway.audit" ]})
    !! "timestamp" = Some (VStr "2026-01-01T00:00:01").
Proof.
  refine (proj1 (proj2 (log_entry_precedence "2026-01-01T00:00:02"
            (mkLogRecord "jai-mcp.gateway.audit" "INFO"
               (DictMessage {[ "timestamp" := VStr "2026-01-01T00:00:01" ]})
               {[ "name" := VStr "jai-mcp.gateway.audit" ]})))
            {[ "timestamp" := VStr "2026-01-01T00:00:01" ]} "timestamp"
            (VStr "2026-01-01T00:00:01") eq_refl _ _).
  - right. reflexivity.
  - reflexivity.
Defined.

Lemma standard_only (attributes : gmap string Value) (k : string) :
  (∀ k, is_Some (attributes !! k) →
        k ∈ standard_attributes ∨ k = "taskName") →
  k ≠ "taskName" →
  (if bool_decide (k ∈ standard_attributes) then None
   else attributes !! k) = None.
Proof.
  intros Hstd Hk'. case_bool_decide as Hk; [done |].
  destruct (attributes !! k) eqn:E; [| done].
  destruct (Hstd k) as [? | ?]; [by rewrite E | done | done].
Qed.

(** X15.  The shape of the formatted audit entries, for a record whose
    attributes are the standard ones, with or without the [taskName] that
    newer Python versions add.  The two records of the middleware name their
    kind under [event], have no [event_type], and are stamped by the
    formatter.  An operation record names its kind under [event_type], has
    no [event], keeps the timestamp taken by [log_mcp_operation] instead of
    the formatter's, gives [None] for a user id or e-mail the identity
    lacks, and has a [details] field exactly when a non-empty payload was
    passed.  Without a logger [log_mcp_operation] emits nothing. *)
Theorem audit_entry_shapes (logger : Logger)
    (attributes : gmap string Value) (formatted_at : string) :
  (∀ k, is_Some (attributes !! k) →
        k ∈ standard_attributes ∨ k = "taskName") →
  (∀ method path client_ip user_agent,
     let entry :=
       log_entry formatted_at
         (info_record logger
            (record_fields
               (request_received method path client_ip user_agent))
            attributes) in
     entry !! "event" = Some (VStr "request_received")
     ∧ entry !! "event_type" = None
     ∧ entry !! "timestamp" = Some (VStr formatted_at)
     ∧ entry !! "user_agent" = Some (of_option user_agent))
  ∧ (∀ status path,
       let entry :=
         log_entry formatted_at
           (info_record logger
              (record_fields (request_completed status path)) attributes) in
       entry !! "event" = Some (VStr "request_completed")
       ∧ entry !! "event_type" = None
       ∧ entry !! "timestamp" = Some (VStr formatted_at)
       ∧ entry !! "status_code" = Some (VInt status))
  ∧ (∀ operation user tenant details logged_at fields,
       log_mcp_operation (Some logger) operation user tenant details
                         logged_at = Some fields →
       let entry :=
         log_entry formatted_at (info_record logger fields attributes) in
       entry !! "event_type" = Some (VStr "mcp_operation")
       ∧ entry !! "event" = None
       ∧ entry !! "timestamp" = Some (VStr logged_at)
       ∧ entry !! "level" = Some (VStr "INFO")
       ∧ entry !! "logger" = Some (VStr (logger_name logger))
       ∧ entry !! "user_id" = Some (of_option (u_id user))
       ∧ entry !! "user_email" = Some (of_option (u_email user))
       ∧ (entry !! "details" = None
          ↔ details = None ∨ details = Some ∅))
  ∧ (∀ operation user tenant details logged_at,
       log_mcp_operation None operation user tenant details logged_at
       = None).
Proof.
  intros Hstd. split; [| split; [| split]].
  - intros method path client_ip user_agent. simpl.
    rewrite !log_entry_lookup, !standard_only by done. simpl.
    repeat split; by simplify_map_eq.
  - intros status path. simpl.
    rewrite !log_entry_lookup, !standard_only by done. simpl.
    repeat split; by simplify_map_eq.
  - intros operation user tenant details logged_at fields [= <-]. simpl.
    rewrite !log_entry_lookup, !standard_only by done. simpl.
    destruct details as [d |]; [case_bool_decide as Hd |].
    + subst d. repeat split; try by simplify_map_eq.
      intros _. by right.
    + repeat split; try by simplify_map_eq.
      intros [Hnone | [= Hempty]]; done.
    + repeat split; try by simplify_map_eq.
      intros _. by left.
  - done.
Qed.

Lemma audit_entry_shapes_witness :
  log_entry "2026-01-01T00:00:02"
    (info_record (mkLogger "jai-mcp.gateway.audit" StreamHandler)
       (record_fields (request_completed 401 "/api/modules"))
       {[ "levelno" := VInt 20 ]})
    !! "event" = Some (VStr "request_completed").
Proof.
  refine (proj1 (proj1 (proj2 (audit_entry_shapes
            (mkLogger "jai-mcp.gateway.audit" StreamHandler)
            {[ "levelno" := VInt 20 ]} "2026-01-01T00:00:02" _))
            401 "/api/modules")).
  intros k [v Hk]. apply lookup_singleton_Some in Hk as [<- _].
  left. apply (bool_decide_unpack _). by vm_compute.
Defined.



(** ** Server start-up and the client *)

Lemma missing_config_nil (cfg : Config.Settings) :
  Server.missing_config cfg = []
  ↔ truthy (Config.JAI_API_KEY cfg) = true
    ∧ truthy (Config.JAI_TENANT cfg) = true
    ∧ truthy (Config.JAI_MCP_ENDPOINT cfg) = true.
Proof.
  unfold Server.missing_config.
  destruct (truthy (Config.JAI_API_KEY cfg)),
    (truthy (Config.JAI_TENANT cfg)),
    (truthy (Config.JAI_MCP_ENDPOINT cfg)); simpl; split;
    (done || by intros (? & ? & ?)).
Qed.

Lemma init_defaults (cfg : Config.Settings) :
  (∃ client, Client.init cfg None None None None = inr client)
  ↔ truthy (Config.JAI_API_KEY cfg) = true
    ∧ truthy (Config.JAI_TENANT cfg) = true
    ∧ truthy (Config.JAI_MCP_ENDPOINT cfg) = true.
Proof.
  unfold Client.init, Client.or_else. simpl.
  destruct (Config.JAI_API_KEY cfg) as [k |],
    (Config.JAI_TENANT cfg) as [t |],
    (Config.JAI_MCP_ENDPOINT cfg) as [e |]; simpl;
    try (split; [by intros [? ?] | by intros (? & ? & ?)]).
  destruct (nonempty k), (nonempty t), (nonempty e); simpl;
    split; try (by intros [? ?]); try (by intros (? & ? & ?)); by eauto.
Qed.



(** X18.  What a constructed client holds.  Each of key, tenant and
    endpoint is the argument when that is given and not empty and the
    configured value otherwise, and none is empty; the headers carry the
    key and the tenant; the connection starts open.  An empty-string
    argument and a timeout of 0 are treated like omitted ones. *)
Theorem client_init_fallbacks (cfg : Config.Settings)
    (api_key tenant endpoint : option string) (timeout : option Z) :
  (∀ client,
     Client.init cfg api_key tenant endpoint timeout = inr client →
     Some (Client.api_key client)
     = Client.or_else api_key (Config.JAI_API_KEY cfg)
     ∧ Some (Client.tenant client)
       = Client.or_else tenant (Config.JAI_TENANT cfg)
     ∧ Some (Client.endpoint client)
       = Client.or_else endpoint (Config.JAI_MCP_ENDPOINT cfg)
     ∧ Client.api_key client ≠ EmptyString
     ∧ Client.tenant client ≠ EmptyString
     ∧ Client.endpoint client ≠ EmptyString
     ∧ Client.headers client !! "X-API-Key" = Some (Client.api_key client)
     ∧ Client.headers client !! "X-Tenant-ID" = Some (Client.tenant client)
     ∧ Client.is_closed client = false
     ∧ (Client.timeout client = 0 → Config.REQUEST_TIMEOUT cfg = 0))
  ∧ Client.init cfg (Some EmptyString) tenant endpoint timeout
    = Client.init cfg None tenant endpoint timeout
  ∧ Client.init cfg api_key tenant endpoint (Some 0)
    = Client.init cfg api_key tenant endpoint None.
Proof.
  split; [| split; reflexivity].
  intros client. unfold Client.init.
  destruct (Client.or_else api_key _) as [k |]; [| done].
  destruct (Client.or_else tenant _) as [t |]; [| done].
  destruct (Client.or_else endpoint _) as [e |]; [| done].
  destruct (nonempty k) eqn:Hk, (nonempty t) eqn:Ht,
    (nonempty e) eqn:He; simpl; try done.
  intros [= <-]. simpl. repeat split; try done.
  - by destruct k.
  - by destruct t.
  - by destruct e.
  - destruct timeout as [z |]; [| done]. by case_bool_decide.
Qed.

Lemma client_init_fallbacks_witness :
  ∃ client,
    Client.init (Config.mkSettings (Some "k-123") (Some "acme")
                                   (Some "https://mcp.jai.com") 30)
                (Some EmptyString) (Some "globex") None (Some 0)
    = inr client
    ∧ Some (Client.api_key client) = Some "k-123"
    ∧ Some (Client.tenant client) = Some "globex".
Proof.
  eexists. split; [reflexivity |].
  destruct (proj1 (client_init_fallbacks
                     (Config.mkSettings (Some "k-123") (Some "acme")
                                        (Some "https://mcp.jai.com") 30)
                     (Some EmptyString) (Some "globex") None (Some 0))
              _ eq_refl) as (Hkey & Hten & _).
  split; [exact Hkey | exact Hten].
Defined.

(** ** The tools and the shared client *)

Lemma aexit_closed (client : Client.JaiAPIClient) :
  Client.is_closed client = true → Client.aexit client = client.
Proof. destruct client. simpl. by intros ->. Qed.

Lemma request_closed (transport : Client.Call -> Client.Outcome)
    (client : Client.JaiAPIClient) (call : Client.Call) :
  Client.is_closed client = true →
  Client.request transport client call
  = (inl (Client.JaiAPIError
            ("Request failed: "
             ++ "Cannot send a request, as the client has been closed.")),
     []).
Proof. intros Hc. unfold Client.request. by rewrite Hc. Qed.

Lemma request_calls (transport : Client.Call -> Client.Outcome)
    (client : Client.JaiAPIClient) (call made : Client.Call) :
  In made (Client.request transport client call).2 → made = call.
Proof.
  unfold Client.request. destruct (Client.is_closed client); [done |].
  destruct (transport call); simpl; by intros [<- | []].
Qed.

Lemma with_client_closes {A : Type} (cfg : Config.Settings)
    (w : Client.World)
    (body : Client.JaiAPIClient ->
            (Client.Exception + A) * list Client.Call)
    (client : Client.JaiAPIClient) :
  Client._client (Tools.with_client cfg w body).2 = Some client →
  Client.is_closed client = true.
Proof.
  unfold Tools.with_client, Client.get_client.
  destruct (Client._client w) as [c0 |] eqn:Hw.
  - destruct (body c0). simpl. by intros [= <-].
  - destruct (Client.init cfg None None None None) as [e | c0]; simpl.
    + by rewrite Hw.
    + destruct (body c0). simpl. by intros [= <-].
Qed.

Lemma with_client_spent {A : Type} (cfg : Config.Settings)
    (w : Client.World)
    (body : Client.JaiAPIClient ->
            (Client.Exception + A) * list Client.Call)
    (client : Client.JaiAPIClient) :
  Client._client w = Some client →
  Client.is_closed client = true →
  Tools.with_client cfg w body
  = ((body client).1,
     {| Client._client := Some client;
        Client.calls := (Client.calls w ++ (body client).2)%list |}).
Proof.
  intros Hw Hc. unfold Tools.with_client, Client.get_client.
  rewrite Hw, (aexit_closed _ Hc). by destruct (body client).
Qed.

Lemma with_client_calls {A : Type} (cfg : Config.Settings)
    (w : Client.World)
    (body : Client.JaiAPIClient ->
            (Client.Exception + A) * list Client.Call)
    (made : Client.Call) :
  In made (Client.calls (Tools.with_client cfg w body).2) →
  In made (Client.calls w) ∨ ∃ client, In made (body client).2.
Proof.
  unfold Tools.with_client, Client.get_client.
  destruct (Client._client w) as [c0 |].
  - destruct (body c0) as [r out] eqn:Hb. simpl. rewrite in_app_iff.
    intros [? | ?]; [by left | right]. exists c0. by rewrite Hb.
  - destruct (Client.init cfg None None None None) as [e | c0]; simpl;
      [by left |].
    destruct (body c0) as [r out] eqn:Hb. simpl. rewrite in_app_iff.
    intros [? | ?]; [by left | right]. exists c0. by rewrite Hb.
Qed.

(** Brings in what [with_client_closes] says about the frame in the
    goal. *)
Ltac closes_by_frame cfg w client :=
  match goal with
  | |- context [Tools.with_client cfg w ?body] =>
      pose proof (with_client_closes cfg w body client)
  end.

(** X19.  Every tool closes the shared client.  After
    [check_api_endpoints], a confirmed [delete_module] or [update_module]
    has run, the client cached by [get_client], if there is one, is closed,
    and [get_client] keeps returning it.  From a state with a closed cached
    client these tools make no call and return their failure message with
    the text of the closed connection. *)
Theorem tools_spend_the_client (cfg : Config.Settings)
    (transport : Client.Call -> Client.Outcome) (w : Client.World) :
  (∀ client module_id name description examples tags,
     (Client._client (Tools.check_api_endpoints cfg transport w).2
      = Some client → Client.is_closed client = true)
     ∧ (Client._client
          (Tools.delete_module cfg transport module_id true w).2
        = Some client → Client.is_closed client = true)
     ∧ (Client._client
          (Tools.update_module cfg transport module_id name description
                               examples tags w).2
        = Some client → Client.is_closed client = true))
  ∧ ((∃ client, Client._client w = Some client
                ∧ Client.is_closed client = true) →
     Tools.check_api_endpoints cfg transport w
     = ("❌ API endpoints unreachable: Request failed: "
        ++ "Cannot send a request, as the client has been closed.", w)
     ∧ (∀ module_id,
          Tools.delete_module cfg transport module_id true w
          = ("❌ Failed to delete module " ++ module_id
             ++ ": Request failed: "
             ++ "Cannot send a request, as the client has been closed.", w))
     ∧ (∀ module_id name description examples tags,
          Tools.update_data name description examples tags ≠ [] →
          Tools.update_module cfg transport module_id name description
                              examples tags w
          = ("❌ Failed to update module " ++ module_id
             ++ ": Request failed: "
             ++ "Cannot send a request, as the client has been closed.",
             w))).
Proof.
  split.
  - intros client module_id name description examples tags.
    split; [| split].
    + unfold Tools.check_api_endpoints. closes_by_frame cfg w client.
      by destruct (Tools.with_client cfg w _) as [[e | r] w'].
    + unfold Tools.delete_module. cbn [negb]. closes_by_frame cfg w client.
      by destruct (Tools.with_client cfg w _) as [[e | r] w'].
    + unfold Tools.update_module. closes_by_frame cfg w client.
      by destruct (Tools.with_client cfg w _) as [[e | [r |]] w'].
  - intros (client & Hw & Hc).
    assert ({| Client._client := Some client;
               Client.calls := (Client.calls w ++ [])%list |} = w) as Hsame.
    { destruct w. simpl in *. by rewrite app_nil_r, Hw. }
    split; [| split].
    + unfold Tools.check_api_endpoints.
      rewrite (with_client_spent _ _ _ _ Hw Hc), request_closed by done.
      simpl. by rewrite Hsame.
    + intros module_id. unfold Tools.delete_module. simpl.
      rewrite (with_client_spent _ _ _ _ Hw Hc), request_closed by done.
      simpl. by rewrite Hsame.
    + intros module_id name description examples tags Hdata.
      unfold Tools.update_module.
      rewrite (with_client_spent _ _ _ _ Hw Hc).
      destruct (Tools.update_data name description examples tags)
        as [| kv rest]; [done |].
      rewrite request_closed by done. simpl. by rewrite Hsame.
Qed.

Lemma tools_spend_the_client_witness :
  Tools.check_api_endpoints
    (Config.mkSettings (Some "k-123") (Some "acme")
                       (Some "https://mcp.jai.com") 30)
    (fun _ => Client.Decoded "{'status': 'healthy'}")
    (Tools.check_api_endpoints
       (Config.mkSettings (Some "k-123") (Some "acme")
                          (Some "https://mcp.jai.com") 30)
       (fun _ => Client.Decoded "{'status': 'healthy'}")
       (Client.mkWorld None [])).2
  = ("❌ API endpoints unreachable: Request failed: "
     ++ "Cannot send a request, as the client has been closed.",
     (Tools.check_api_endpoints
        (Config.mkSettings (Some "k-123") (Some "acme")
                           (Some "https://mcp.jai.com") 30)
        (fun _ => Client.Decoded "{'status': 'healthy'}")
        (Client.mkWorld None [])).2).
Proof.
  refine (proj1 (proj2 (tools_spend_the_client _ _ _) _)).
  eexists. split; reflexivity.
Defined.



Lemma update_data_nil (name description : option string)
    (examples tags : option (list string)) :
  Tools.update_data name description examples tags = []
  ↔ name = None ∧ description = None ∧ examples = None ∧ tags = None.
Proof.
  unfold Tools.update_data.
  destruct name, description, examples, tags; simpl; split;
    (done || by intros (? & ? & ? & ?)).
Qed.



(** ** Start-up of the gateway *)



Lemma outbound_url_single_slash_witness :
  out_url (fw_sent (forward_request
                      (mkProxy "http://localhost:8000" 30 upstream_ok) None
                      "GET" "//modules" 1%positive None "t2" org_admin_t1
                      {[ 1%positive := req_headers request_modules ]}))
  = out_url (fw_sent (forward_request
                        (mkProxy "http://localhost:8000" 30 upstream_ok) None
                        "GET" "/modules" 1%positive None "t2" org_admin_t1
                        {[ 1%positive := req_headers request_modules ]})).
Proof.
  exact (proj2 (outbound_url_single_slash
                  (mkProxy "http://localhost:8000" 30 upstream_ok) None
                  "GET" "/modules" 1%positive None "t2" org_admin_t1
                  {[ 1%positive := req_headers request_modules ]})).
Defined.

Lemma gateway_headers_written_witness :
  rewrite_headers (Some "internal-secret")
    (<["X-Gateway-Tenant-ID" := "forged"]> (req_headers request_modules))
    "t2" org_admin_t1 !! "X-Gateway-Tenant-ID" = Some "t2".
Proof.
  exact (proj1 (proj2 (proj2 (proj2 (gateway_headers_written
           (Some "internal-secret")
           (<["X-Gateway-Tenant-ID" := "forged"]>
              (req_headers request_modules)) "t2" org_admin_t1))))).
Defined.
